(** * DeepGit ranking pipeline (src/tools/rank.py)

    A shallow embedding of the candidate-narrowing and score-fusion stages of
    [src/tools/rank.py]: dense retrieval, cross-encoder re-ranking, filtering,
    activity analysis and final ranking.

    Conventions of the embedding.
    - A repository dict is the record [repo].  The six keys written by
      [fetch_repositories] (lines 155-162) are always present and are plain
      fields; the keys written by later stages are [option] fields, [None]
      meaning that the key is absent from the dict.
    - Python [int] is [Z].  A Python/NumPy float is a rational number, so
      float values live in [Q]; the arithmetic on them is exact (no rounding,
      no NaN, no infinities).  Equality of scores is [Qeq] ([==]).
    - [math.log] and [numpy.linalg.norm]'s square root are library functions
      on floats: they are parameters [math_log] and [np_sqrt] of the
      development.
    - The models, the GitHub API and the clock are collaborators.  Their
      replies are parameters that may depend on the whole history of calls;
      every call is appended to that history, which is the state of the
      monad [M].
    - A stage is a function of the list it reads from the state and returns
      the list it stores.  The lists of a run hold distinct dict objects (one
      per repository fetched), so an in-place update of a dict is an update of
      the list element. *)

From Stdlib Require Import List ZArith QArith Qminmax String Bool Lia Lqa.
From Stdlib Require Import Permutation Sorted.
Import ListNotations.

Local Open Scope Q_scope.

(** ** Python values *)

(** [d.get(k, default)] on an optional key. *)
Definition dict_get {A : Type} (field : option A) (default : A) : A :=
  match field with
  | Some v => v
  | None => default
  end.

(** [x < y] on floats. *)
Definition Qlt_bool (x y : Q) : bool := negb (Qle_bool y x).

(** The exceptions the stages can raise. *)
Inductive exn : Type :=
| ValueError (msg : string)
| KeyError (key : string)
| IndexError
| AssertionError.

(** The outcome of a computation that may raise. *)
Inductive result (A : Type) : Type :=
| Ok (a : A)
| Raise (e : exn).

Arguments Ok {A} a.
Arguments Raise {A} e.

Class Monad (m : Type -> Type) : Type := {
  ret : forall {A : Type}, A -> m A;
  bind : forall {A B : Type}, m A -> (A -> m B) -> m B
}.

Notation "x <- c ;; k" := (bind c (fun x => k))
  (at level 61, c at next level, right associativity).

#[export] Instance result_monad : Monad result := {
  ret := @Ok;
  bind := fun A B c k =>
    match c with
    | Ok a => k a
    | Raise e => Raise e
    end
}.

(** A [for] loop that builds one value per element. *)
Fixpoint mapM {m : Type -> Type} `{Monad m} {A B : Type}
    (f : A -> m B) (l : list A) : m (list B) :=
  match l with
  | [] => ret []
  | x :: l' => y <- f x ;; ys <- mapM f l' ;; ret (y :: ys)
  end.

(** [d[k]] on an optional key. *)
Definition subscript {A : Type} (key : string) (field : option A) : result A :=
  match field with
  | Some v => Ok v
  | None => Raise (KeyError key)
  end.

(** [l[i] = f(l[i])] for an index counted from the front. *)
Fixpoint set_item {A : Type} (i : nat) (f : A -> A) (l : list A)
    : result (list A) :=
  match l, i with
  | [], _ => Raise IndexError
  | x :: l', O => Ok (f x :: l')
  | x :: l', S i' => l'' <- set_item i' f l' ;; ret (x :: l'')
  end.

(** [min(l)]: the first least element. *)
Definition py_min (l : list Q) : result Q :=
  match l with
  | [] => Raise (ValueError "min() arg is an empty sequence")
  | x :: l' => Ok (fold_left (fun m y => if Qlt_bool y m then y else m) l' x)
  end.

(** [max(l)]: the first greatest element. *)
Definition py_max (l : list Q) : result Q :=
  match l with
  | [] => Raise (ValueError "max() arg is an empty sequence")
  | x :: l' => Ok (fold_left (fun m y => if Qlt_bool m y then y else m) l' x)
  end.

(** [l[:n]] for a Python int [n]: a negative [n] counts from the end. *)
Definition py_prefix {A : Type} (n : Z) (l : list A) : list A :=
  if (0 <=? n)%Z then firstn (Z.to_nat n) l
  else firstn (List.length l - Z.to_nat (- n))%nat l.

(** ** [sorted(l, key=..., reverse=True)]

    Python's [sorted] is stable, also with [reverse=True]: elements whose keys
    compare equal keep their relative order.  On keys that are totally
    ordered the result of a stable sort is determined by the input (lemma
    [sorted_reverse_unique]), so the insertion sort below computes the very
    list [sorted] returns. *)
Section PySorted.
Context {A : Type}.
Variable key : A -> Q.

(** [x] stood before every element of [l] in the input: it goes in front of
    the first element whose key is not greater than its own. *)
Fixpoint insert_reverse (x : A) (l : list A) : list A :=
  match l with
  | [] => [x]
  | y :: l' =>
      if Qle_bool (key y) (key x) then x :: l else y :: insert_reverse x l'
  end.

Definition sorted_reverse (l : list A) : list A :=
  fold_right insert_reverse [] l.

(** Descending order of the keys. *)
Definition key_ge (x y : A) : Prop := key y <= key x.

(** The elements of [l] whose key equals [k], in their order in [l]. *)
Definition with_key (k : Q) (l : list A) : list A :=
  filter (fun x => Qeq_bool (key x) k) l.

End PySorted.

(** A subsequence: some elements removed, the others in their order. *)
Inductive subsequence {A : Type} : list A -> list A -> Prop :=
| subsequence_nil : subsequence [] []
| subsequence_skip x s l : subsequence s l -> subsequence s (x :: l)
| subsequence_keep x s l : subsequence s l -> subsequence (x :: s) (x :: l).

(** ** Data model *)

(** A repository dict. *)
Record repo : Type := mk_repo {
  title : string;
  link : string;
  combined_doc : string;
  stars : Z;
  full_name : string;
  open_issues_count : Z;
  semantic_similarity : option Q;
  cross_encoder_score : option Q;
  pr_count : option Z;
  latest_commit_days : option Z;
  activity_score : option Q;
  final_score : option Q
}.

(** [repo["semantic_similarity"] = v] *)
Definition set_semantic_similarity (v : Q) (r : repo) : repo :=
  mk_repo (title r) (link r) (combined_doc r) (stars r) (full_name r)
    (open_issues_count r) (Some v) (cross_encoder_score r) (pr_count r)
    (latest_commit_days r) (activity_score r) (final_score r).

(** [repo["cross_encoder_score"] = v] *)
Definition set_cross_encoder_score (v : Q) (r : repo) : repo :=
  mk_repo (title r) (link r) (combined_doc r) (stars r) (full_name r)
    (open_issues_count r) (semantic_similarity r) (Some v) (pr_count r)
    (latest_commit_days r) (activity_score r) (final_score r).

(** [repo["final_score"] = v] *)
Definition set_final_score (v : Q) (r : repo) : repo :=
  mk_repo (title r) (link r) (combined_doc r) (stars r) (full_name r)
    (open_issues_count r) (semantic_similarity r) (cross_encoder_score r)
    (pr_count r) (latest_commit_days r) (activity_score r) (Some v).

(** The dict returned by [analyze_repository_activity] (line 281). *)
Record activity_data : Type := mk_activity_data {
  data_pr_count : Z;
  data_latest_commit_days : Z;
  data_activity_score : Q
}.

(** [repo.update(activity_data)] *)
Definition update_activity (d : activity_data) (r : repo) : repo :=
  mk_repo (title r) (link r) (combined_doc r) (stars r) (full_name r)
    (open_issues_count r) (semantic_similarity r) (cross_encoder_score r)
    (Some (data_pr_count d)) (Some (data_latest_commit_days d))
    (Some (data_activity_score d)) (final_score r).

(** The fields of [AgentConfiguration] read by the stages. *)
Record AgentConfiguration : Type := mk_config {
  dense_retrieval_k : Z;
  cross_encoder_top_n : Z;
  min_stars : Z;
  cross_encoder_threshold : Q;
  sem_model_name : string;
  cross_encoder_model_name : string
}.

(** ** Collaborators *)

(** A call made to a collaborator. *)
Inductive call : Type :=
| Load_SentenceTransformer (model_name : string)
| Encode_docs (docs : list string)
| Encode_query (user_query : string)
| Load_CrossEncoder (model_name : string)
| Predict (pairs : list (string * string))
| Get_pulls (repo_full_name : string)
| Get_commits (repo_full_name : string)
| Utcnow.

Definition history : Type := list call.

(** The reply to [GET /repos/<full_name>/pulls]: the status code and the
    decoded JSON list, one entry per open pull request of the page. *)
Record pulls_response : Type := mk_pulls_response {
  pulls_status_code : Z;
  pulls_json : list string
}.

(** The reply to [GET /repos/<full_name>/commits]: the status code and the
    decoded JSON list; a commit is represented by the instant its
    [commit.committer.date] denotes, in microseconds since the epoch. *)
Record commits_response : Type := mk_commits_response {
  commits_status_code : Z;
  commits_json : list Z
}.

(** What the stages take from outside the repository.  The replies of the
    models, of the GitHub API and of the clock may depend on the calls made
    so far. *)
Record environment : Type := mk_environment {
  math_log : Z -> Q;
  np_sqrt : Q -> Q;
  st_encode_docs : history -> list string -> list (list Q);
  st_encode_query : history -> string -> list Q;
  ce_predict : history -> list (string * string) -> list Q;
  get_pulls : history -> string -> pulls_response;
  get_commits : history -> string -> commits_response;
  utcnow : history -> Z
}.

(** A stage: it may call collaborators, extending the history, and may
    raise. *)
Definition M (A : Type) : Type := history -> result A * history.

#[export] Instance M_monad : Monad M := {
  ret := fun A a h => (Ok a, h);
  bind := fun A B c k h =>
    match c h with
    | (Ok a, h') => k a h'
    | (Raise e, h') => (Raise e, h')
    end
}.

(** A computation without calls, run inside a stage. *)
Definition lift {A : Type} (c : result A) : M A := fun h => (c, h).

(** The call [c], answered by [reply] from the history before it. *)
Definition invoke {A : Type} (c : call) (reply : history -> A) : M A :=
  fun h => (Ok (reply h), h ++ [c]).

(** Running a stage from the empty history. *)
Definition run {A : Type} (c : M A) : result A * history := c [].

(** ** The stages *)

Section Stages.
Variable env : environment.

(** *** Node 2: dense retrieval with FAISS *)

(** The inner product of two vectors. *)
Definition dot (u v : list Q) : Q :=
  fold_left Qplus (map (fun p => fst p * snd p) (combine u v)) 0.

(** [normalize_embeddings] (lines 190-192): every row divided by its norm
    plus [1e-10]. *)
Definition normalize_embeddings (embeddings : list (list Q)) : list (list Q) :=
  map (fun row =>
         let norm := np_sqrt env (dot row row) in
         map (fun x => x / (norm + (1 # 10000000000))) row)
      embeddings.

(** [faiss.IndexFlatIP]: the [k] rows with the greatest inner product with
    the query, as pairs of a row number and its inner product
    ([zip(I[0], D[0])]), best first.  FAISS is a library outside the
    repository: this follows its documentation. *)
Definition IndexFlatIP_search (index : list (list Q)) (query : list Q)
    (k : Z) : list (nat * Q) :=
  firstn (Z.to_nat k)
    (sorted_reverse snd
       (combine (seq 0 (List.length index)) (map (dot query) index))).

(** [index.search(query, k)] (line 206): the Python wrapper of FAISS
    asserts [k > 0] before it searches. *)
Definition index_search (index : list (list Q)) (query : list Q) (k : Z)
    : result (list (nat * Q)) :=
  if (k <=? 0)%Z then Raise AssertionError
  else Ok (IndexFlatIP_search index query k).

(** The loop of lines 208-209. *)
Fixpoint annotate_similarity (hits : list (nat * Q)) (repositories : list repo)
    : result (list repo) :=
  match hits with
  | [] => Ok repositories
  | (idx, score) :: hits' =>
      repositories' <- set_item idx (set_semantic_similarity score) repositories ;;
      annotate_similarity hits' repositories'
  end.

(** Lines 173-215.  The embeddings of the documents are a list of rows
    (the reshape of lines 187-188 only restores that shape), the embedding of
    the query is one row.  The model is constructed (line 175) before the
    list of documents is looked at. *)
Definition dense_retrieval (cfg : AgentConfiguration) (user_query : string)
    (repositories : list repo) : M (list repo) :=
  _ <- invoke (Load_SentenceTransformer (sem_model_name cfg)) (fun _ => tt) ;;
  let docs := map combined_doc repositories in
  match docs with
  | [] => ret []
  | _ :: _ =>
      doc_embeddings <- invoke (Encode_docs docs)
                          (fun h => st_encode_docs env h docs) ;;
      let doc_embeddings := normalize_embeddings doc_embeddings in
      query_embedding <- invoke (Encode_query user_query)
                           (fun h => st_encode_query env h user_query) ;;
      let query_embedding :=
        hd [] (normalize_embeddings [query_embedding]) in
      let k := Z.min (dense_retrieval_k cfg)
                 (Z.of_nat (List.length doc_embeddings)) in
      hits <- lift (index_search doc_embeddings query_embedding k) ;;
      repositories' <- lift (annotate_similarity hits repositories) ;;
      ret (sorted_reverse (fun x => dict_get (semantic_similarity x) 0)
             repositories')
  end.

(** *** Node 3: re-ranking with the cross-encoder *)

(** The loop of lines 228-229: [zip] stops at the shorter list. *)
Fixpoint assign_scores (candidates : list repo) (scores : list Q) : list repo :=
  match candidates, scores with
  | candidate :: candidates', score :: scores' =>
      set_cross_encoder_score score candidate :: assign_scores candidates' scores'
  | _, _ => candidates
  end.

(** [sorted(l, key=lambda x: x[name], reverse=True)]: the key of every
    element is computed first, and a missing key raises. *)
Definition sorted_by_item (name : string) (item : repo -> option Q)
    (l : list repo) : result (list repo) :=
  _ <- mapM (fun x => subscript name (item x)) l ;;
  ret (sorted_reverse (fun x => dict_get (item x) 0) l).

Definition cross_encoder_rerank_func (query : string) (candidates : list repo)
    (top_n : Z) : M (list repo) :=
  let pairs := map (fun candidate => (query, combined_doc candidate)) candidates in
  scores <- invoke (Predict pairs) (fun h => ce_predict env h pairs) ;;
  let candidates := assign_scores candidates scores in
  ranked <- lift (sorted_by_item "cross_encoder_score" cross_encoder_score
                    candidates) ;;
  ret (py_prefix top_n ranked).

(** Lines 220-233. *)
Definition cross_encoder_rerank (cfg : AgentConfiguration) (user_query : string)
    (semantic_ranked : list repo) : M (list repo) :=
  _ <- invoke (Load_CrossEncoder (cross_encoder_model_name cfg)) (fun _ => tt) ;;
  let candidates_for_rerank := firstn 100 semantic_ranked in
  cross_encoder_rerank_func user_query candidates_for_rerank
    (cross_encoder_top_n cfg).

(** *** Node 4: filtering low-star repositories *)

(** The test of line 242. *)
Definition low_signal (cfg : AgentConfiguration) (r : repo) : bool :=
  (stars r <? min_stars cfg)%Z
  && Qlt_bool (dict_get (cross_encoder_score r) 0) (cross_encoder_threshold cfg).

(** One iteration of the loop of lines 241-244. *)
Definition filter_step (cfg : AgentConfiguration)
    (filtered : list repo) (r : repo) : list repo :=
  if low_signal cfg r then filtered else filtered ++ [r].

(** Lines 238-249. *)
Definition filter_candidates (cfg : AgentConfiguration)
    (reranked_candidates : list repo) : list repo :=
  let filtered := fold_left (filter_step cfg) reranked_candidates [] in
  match filtered with
  | [] => reranked_candidates
  | _ :: _ => filtered
  end.

(** *** Node 5: activity analysis *)

(** Microseconds in a day: [timedelta.days] is the floor of the difference
    in days. *)
Definition microseconds_per_day : Z := 86400000000.

(** Lines 259-281, when both lookups reply with a JSON list and a first
    commit that can be read ([Lookups.analyze_repository_activity] has the
    lookups that raise).  The clock is read only when a commit was returned;
    [commit_date] is the instant that [fromisoformat] reads from the date
    of the first commit of the reply. *)
Definition analyze_repository_activity (r : repo) : M activity_data :=
  let full_name := full_name r in
  pr_response <- invoke (Get_pulls full_name)
                   (fun h => get_pulls env h full_name) ;;
  let pr_count :=
    if (pulls_status_code pr_response =? 200)%Z
    then Z.of_nat (List.length (pulls_json pr_response)) else 0%Z in
  commits_response <- invoke (Get_commits full_name)
                        (fun h => get_commits env h full_name) ;;
  days_diff <-
    (if (commits_status_code commits_response =? 200)%Z then
       match commits_json commits_response with
       | commit_date :: _ =>
           now <- invoke Utcnow (utcnow env) ;;
           ret ((now - commit_date) / microseconds_per_day)%Z
       | [] => ret 999%Z
       end
     else ret 999%Z) ;;
  let open_issues := open_issues_count r in
  let non_pr_issues := Z.max 0 (open_issues - pr_count) in
  let activity_score :=
    inject_Z (3 * pr_count + non_pr_issues) - inject_Z days_diff / 30 in
  ret (mk_activity_data pr_count days_diff activity_score).

(** The loop of lines 283-285. *)
Fixpoint analyze_activity (filtered_candidates : list repo) : M (list repo) :=
  match filtered_candidates with
  | [] => ret []
  | r :: rest =>
      activity_data <- analyze_repository_activity r ;;
      rest' <- analyze_activity rest ;;
      ret (update_activity activity_data r :: rest')
  end.

(** *** Node 6: final ranking *)

(** [math.log(repo.get("stars", 0) + 1)]; [math.log] raises on an argument
    that is not positive. *)
Definition log_stars (r : repo) : result Q :=
  let x := (stars r + 1)%Z in
  if (x <=? 0)%Z then Raise (ValueError "math domain error")
  else Ok (math_log env x).

Definition normalize (val min_val max_val : Q) : Q :=
  if Qeq_bool (max_val - min_val) 0 then 1 # 2
  else (val - min_val) / (max_val - min_val).

(** The weights of line 310. *)
Definition weight_cross_encoder : Q := 3 # 10.
Definition weight_semantic : Q := 2 # 10.
Definition weight_activity : Q := 2 # 10.
Definition weight_stars : Q := 3 # 10.

(** Lines 292-313. *)
Definition final_ranking (filtered_candidates : list repo)
    : result (list repo) :=
  let semantic_scores :=
    map (fun r => dict_get (semantic_similarity r) 0) filtered_candidates in
  let cross_encoder_scores :=
    map (fun r => dict_get (cross_encoder_score r) 0) filtered_candidates in
  let activity_scores :=
    map (fun r => dict_get (activity_score r) (-100)) filtered_candidates in
  star_scores <- mapM log_stars filtered_candidates ;;
  min_sem <- py_min semantic_scores ;;
  max_sem <- py_max semantic_scores ;;
  min_ce <- py_min cross_encoder_scores ;;
  max_ce <- py_max cross_encoder_scores ;;
  min_act <- py_min activity_scores ;;
  max_act <- py_max activity_scores ;;
  min_star <- py_min star_scores ;;
  max_star <- py_max star_scores ;;
  scored <- mapM (fun r =>
      let norm_sem := normalize (dict_get (semantic_similarity r) 0) min_sem max_sem in
      let norm_ce := normalize (dict_get (cross_encoder_score r) 0) min_ce max_ce in
      let norm_act := normalize (dict_get (activity_score r) (-100)) min_act max_act in
      log_star <- log_stars r ;;
      let norm_star := normalize log_star min_star max_star in
      ret (set_final_score
             (weight_cross_encoder * norm_ce + weight_semantic * norm_sem
              + weight_activity * norm_act + weight_stars * norm_star) r))
    filtered_candidates ;;
  sorted_by_item "final_score" final_score scored.

End Stages.

(** ** The specification's vocabulary *)

(** The raw signals of the fusion (specification, section 4.6, step 1). *)
Definition reranker_signal (r : repo) : Q := dict_get (cross_encoder_score r) 0.
Definition similarity_signal (r : repo) : Q := dict_get (semantic_similarity r) 0.
Definition activity_signal (r : repo) : Q := dict_get (activity_score r) (-100).
Definition log_stars_signal (env : environment) (r : repo) : Q :=
  math_log env (stars r + 1).

(** The least and the greatest value of a non-empty list. *)
Definition minimum (l : list Q) : Q :=
  match l with
  | [] => 0
  | x :: l' => fold_right Qmin x l'
  end.

Definition maximum (l : list Q) : Q :=
  match l with
  | [] => 0
  | x :: l' => fold_right Qmax x l'
  end.

(** A signal of [r] normalized over the candidate set [l]. *)
Definition normalized (signal : repo -> Q) (l : list repo) (r : repo) : Q :=
  normalize (signal r) (minimum (map signal l)) (maximum (map signal l)).

(** The fused score as the specification words it (section 4.6, step 3). *)
Definition fused_score (env : environment) (l : list repo) (r : repo) : Q :=
  (3 # 10) * normalized reranker_signal l r
  + (2 # 10) * normalized similarity_signal l r
  + (2 # 10) * normalized activity_signal l r
  + (3 # 10) * normalized (log_stars_signal env) l r.

(** The candidate [r], standing between [before] and [after], is strictly
    above every other candidate on [signal]. *)
Definition unique_maximum (signal : repo -> Q) (before : list repo) (r : repo)
    (after : list repo) : Prop :=
  Forall (fun r' => signal r' < signal r) (before ++ after).

(** Star counts are not negative (specification, section 3). *)
Definition stars_valid (l : list repo) : Prop :=
  Forall (fun r => (0 <= stars r)%Z) l.

(** The rule of the quality filter (section 4.4): low on both signals. *)
Definition below_both_thresholds (cfg : AgentConfiguration) (r : repo) : Prop :=
  (stars r < min_stars cfg)%Z
  /\ reranker_signal r < cross_encoder_threshold cfg.

(** The activity score of the specification (section 4.5). *)
Definition activity_formula (prCount openIssueCount daysSinceCommit : Z) : Q :=
  3 * inject_Z prCount + inject_Z (Z.max 0 (openIssueCount - prCount))
  - inject_Z daysSinceCommit / 30.

(** [r'] is [r] but for the three keys written by the activity stage. *)
Definition same_but_activity (r r' : repo) : Prop :=
  title r' = title r /\ link r' = link r /\ combined_doc r' = combined_doc r
  /\ stars r' = stars r /\ full_name r' = full_name r
  /\ open_issues_count r' = open_issues_count r
  /\ semantic_similarity r' = semantic_similarity r
  /\ cross_encoder_score r' = cross_encoder_score r
  /\ final_score r' = final_score r.

(** Descending order of a score. *)
Definition descending (score : repo -> Q) (l : list repo) : Prop :=
  StronglySorted (key_ge score) l.

(** The key [final_score] of a ranked candidate. *)
Definition final_score_of (r : repo) : Q := dict_get (final_score r) 0.

(** ** A sample run

    Stand-ins for the collaborators, to run the stages on concrete inputs:
    two-dimensional embeddings of norm 1, scores that are the length of the
    document, two open pull requests and a last commit 45 days old. *)
Module Sample.

Local Open Scope string_scope.

Definition world : environment :=
  mk_environment
    (fun z => inject_Z (Z.log2 z))
    (fun q => q)
    (fun _ docs => map (fun d => if String.eqb d "alpha" then [1; 0] else [0; 1]) docs)
    (fun _ _ => [1; 0])
    (fun _ pairs => map (fun p => inject_Z (Z.of_nat (String.length (snd p)))) pairs)
    (fun _ _ => mk_pulls_response 200 ["pr 1"; "pr 2"])
    (fun _ name =>
       if String.eqb name "o/empty" then mk_commits_response 200 []
       else mk_commits_response 200 [0%Z])
    (fun _ => (45 * microseconds_per_day + 5)%Z).

(** A repository as [fetch_repositories] builds it. *)
Definition fetched (name doc : string) (stars issues : Z) : repo :=
  mk_repo name ("https://github.com/" ++ name) doc stars name issues
    None None None None None None.

Definition A : repo := fetched "o/a" "alpha" 10 7.
Definition B : repo := fetched "o/b" "be" 5 1.

(** The candidates of the filter scenario of the specification. *)
Definition A_reranked : repo := set_cross_encoder_score 2 A.
Definition B_reranked : repo := set_cross_encoder_score 6 B.

(** Two candidates as they reach the final ranking: [strong] is above
    [weak] on the four signals. *)
Definition strong : repo :=
  mk_repo "strong" "https://github.com/o/strong" "alpha" 100 "o/strong" 9
    (Some (9 # 10)) (Some 6) (Some 2%Z) (Some 45%Z) (Some (115 # 10)) None.
Definition weak : repo :=
  mk_repo "weak" "https://github.com/o/weak" "be" 5 "o/weak" 1
    (Some (1 # 10)) (Some 2) (Some 0%Z) (Some 999%Z) (Some (-323 # 10)) None.

Definition config (top_k : Z) : AgentConfiguration :=
  mk_config top_k 50 50 (55 # 10) "all-mpnet-base-v2"
    "cross-encoder/ms-marco-MiniLM-L-6-v2".

End Sample.

(** ** The activity lookups as they are performed

    Lines 263-273 call [requests.get], [response.json()], the subscripts of
    the first commit and [fromisoformat] without a handler: each of them can
    raise, and the exception leaves the stage.  Here a lookup answers with a
    reply that says so; the stage above, over [environment], is this one in
    the worlds where every lookup replies with a JSON list and commits that
    can be read ([Lookups.replying]). *)
Module Lookups.

(** What can leave the stage: an exception of [requests.get], of
    [response.json()], or a Python exception (of the reading of a commit, or
    of another stage). *)
Inductive failure : Type :=
| RequestException
| JSONDecodeError
| Python (e : exn).

Inductive outcome (A : Type) : Type :=
| Done (a : A)
| Failed (f : failure).

Arguments Done {A} a.
Arguments Failed {A} f.

(** The reply to a request: [requests.get] raises, or there is a response
    with a status code and a body, [None] when the body is not JSON. *)
Inductive reply (A : Type) : Type :=
| Get_raises
| Response (status_code : Z) (json : option A).

Arguments Get_raises {A}.
Arguments Response {A} status_code json.

(** The replies of the API and the clock.  A pull request is its title; a
    commit is the instant that [fromisoformat] reads from
    [commit.committer.date], or the exception that reading it raises. *)
Record world : Type := mk_world {
  pulls : history -> string -> reply (list string);
  commits : history -> string -> reply (list (result Z));
  clock : history -> Z
}.

Definition L (A : Type) : Type := history -> outcome A * history.

#[global] Instance L_monad : Monad L := {
  ret := fun A a h => (Done a, h);
  bind := fun A B c k h =>
    match c h with
    | (Done a, h') => k a h'
    | (Failed f, h') => (Failed f, h')
    end
}.

Definition fail {A : Type} (f : failure) : L A := fun h => (Failed f, h).

(** [requests.get]: the call is recorded, then it raises or gives the
    response. *)
Definition get {A : Type} (c : call) (answer : history -> reply A)
    : L (Z * option A) :=
  fun h =>
    match answer h with
    | Get_raises => (Failed RequestException, h ++ [c])
    | Response status_code json => (Done (status_code, json), h ++ [c])
    end.

(** [response.json()] *)
Definition json_of {A : Type} (response : Z * option A) : L A :=
  match snd response with
  | Some decoded => ret decoded
  | None => fail JSONDecodeError
  end.

(** A stage of the pipeline that does no lookup. *)
Definition from_stage {A : Type} (c : M A) : L A :=
  fun h =>
    match c h with
    | (Ok a, h') => (Done a, h')
    | (Raise e, h') => (Failed (Python e), h')
    end.

Section Activity.
Variable w : world.

(** Lines 259-281. *)
Definition analyze_repository_activity (r : repo) : L activity_data :=
  let full_name := full_name r in
  pr_response <- get (Get_pulls full_name) (fun h => pulls w h full_name) ;;
  pr_count <- (if (fst pr_response =? 200)%Z
               then decoded <- json_of pr_response ;;
                    ret (Z.of_nat (List.length decoded))
               else ret 0%Z) ;;
  commits_response <- get (Get_commits full_name)
                        (fun h => commits w h full_name) ;;
  days_diff <-
    (if (fst commits_response =? 200)%Z then
       commit_data <- json_of commits_response ;;
       match commit_data with
       | Ok commit_date :: _ =>
           now <- from_stage (invoke Utcnow (clock w)) ;;
           ret ((now - commit_date) / microseconds_per_day)%Z
       | Raise e :: _ => fail (Python e)
       | [] => ret 999%Z
       end
     else ret 999%Z) ;;
  let open_issues := open_issues_count r in
  let non_pr_issues := Z.max 0 (open_issues - pr_count) in
  let activity_score :=
    inject_Z (3 * pr_count + non_pr_issues) - inject_Z days_diff / 30 in
  ret (mk_activity_data pr_count days_diff activity_score).

(** The loop of lines 283-285. *)
Fixpoint analyze_activity (filtered_candidates : list repo) : L (list repo) :=
  match filtered_candidates with
  | [] => ret []
  | r :: rest =>
      activity_data <- analyze_repository_activity r ;;
      rest' <- analyze_activity rest ;;
      ret (update_activity activity_data r :: rest')
  end.

(** The nodes from [dense_retrieval] to [final_ranking] along the edges of
    lines 347-351: every node stores its list in the state and the next
    node reads it. *)
Definition ranking_pipeline (env : environment) (cfg : AgentConfiguration)
    (user_query : string) (repositories : list repo) : L (list repo) :=
  semantic_ranked <- from_stage (dense_retrieval env cfg user_query repositories) ;;
  reranked_candidates <-
    from_stage (cross_encoder_rerank env cfg user_query semantic_ranked) ;;
  let filtered_candidates := filter_candidates cfg reranked_candidates in
  filtered_candidates <- analyze_activity filtered_candidates ;;
  from_stage (lift (final_ranking env filtered_candidates)).

End Activity.

(** The world in which every lookup replies as [env] says: a response with
    a JSON list, and commits whose date can be read. *)
Definition replying (env : environment) : world :=
  mk_world
    (fun h name =>
       Response (pulls_status_code (get_pulls env h name))
         (Some (pulls_json (get_pulls env h name))))
    (fun h name =>
       Response (commits_status_code (get_commits env h name))
         (Some (map Ok (commits_json (get_commits env h name)))))
    (utcnow env).

(** The exception with which a reply to the commit lookup leaves the stage,
    if it does: [requests.get] raised, a response with status 200 has a body
    that is not JSON, or its first commit cannot be read. *)
Definition commit_lookup_failure (answer : reply (list (result Z)))
    : option failure :=
  match answer with
  | Get_raises => Some RequestException
  | Response status_code json =>
      if (status_code =? 200)%Z then
        match json with
        | None => Some JSONDecodeError
        | Some (Raise e :: _) => Some (Python e)
        | Some _ => None
        end
      else None
  end.

(** A world for the sample run: the pull-request lookup replies, the commit
    lookup of [o/down] raises in [requests.get], that of [o/html] answers
    200 with a body that is not JSON, that of [o/odd] gives a commit
    without a date, and the others reply with one commit. *)
Definition sample_world : world :=
  mk_world
    (fun _ _ => Response 200 (Some ["pr 1"; "pr 2"]%string))
    (fun _ name =>
       if String.eqb name "o/down" then Get_raises
       else if String.eqb name "o/html" then Response 200 None
       else if String.eqb name "o/odd"
            then Response 200 (Some [Raise (KeyError "date")])
            else Response 200 (Some [Ok 0%Z]))
    (fun _ => (45 * microseconds_per_day + 5)%Z).

End Lookups.

(** ** More vocabulary *)

(** [r'] is [r] but for the key [semantic_similarity]. *)
Definition same_but_similarity (r r' : repo) : Prop :=
  title r' = title r /\ link r' = link r /\ combined_doc r' = combined_doc r
  /\ stars r' = stars r /\ full_name r' = full_name r
  /\ open_issues_count r' = open_issues_count r
  /\ cross_encoder_score r' = cross_encoder_score r
  /\ pr_count r' = pr_count r
  /\ latest_commit_days r' = latest_commit_days r
  /\ activity_score r' = activity_score r
  /\ final_score r' = final_score r.

(** [r'] is [r] but for the key [cross_encoder_score]. *)
Definition same_but_reranker (r r' : repo) : Prop :=
  title r' = title r /\ link r' = link r /\ combined_doc r' = combined_doc r
  /\ stars r' = stars r /\ full_name r' = full_name r
  /\ open_issues_count r' = open_issues_count r
  /\ semantic_similarity r' = semantic_similarity r
  /\ pr_count r' = pr_count r
  /\ latest_commit_days r' = latest_commit_days r
  /\ activity_score r' = activity_score r
  /\ final_score r' = final_score r.

(** [r'] has the six keys of [r] that [fetch_repositories] wrote. *)
Definition same_repository (r r' : repo) : Prop :=
  title r' = title r /\ link r' = link r /\ combined_doc r' = combined_doc r
  /\ stars r' = stars r /\ full_name r' = full_name r
  /\ open_issues_count r' = open_issues_count r.

(** Every candidate of [output] is a repository of [input], enriched. *)
Definition drawn_from (input output : list repo) : Prop :=
  Forall (fun r' => exists r, In r input /\ same_repository r r') output.

(** The models answer with one row per document and one score per pair
    (their interface contracts). *)
Definition models_well_behaved (env : environment) : Prop :=
  (forall h docs, List.length (st_encode_docs env h docs) = List.length docs)
  /\ (forall h pairs, List.length (ce_predict env h pairs) = List.length pairs).

(** The calls to the GitHub API in a history: all but the clock readings. *)
Definition api_calls (h : history) : list call :=
  filter (fun c => match c with Utcnow => false | _ => true end) h.

(** The two lookups of [analyze_repository_activity]. *)
Definition lookups_of (r : repo) : list call :=
  [Get_pulls (full_name r); Get_commits (full_name r)].

(** A cross-encoder that scores only the first pair, for the sample run. *)
Module Scenario.

Definition short_scores : environment :=
  mk_environment (math_log Sample.world) (np_sqrt Sample.world)
    (st_encode_docs Sample.world) (st_encode_query Sample.world)
    (fun h pairs => firstn 1 (ce_predict Sample.world h pairs))
    (get_pulls Sample.world) (get_commits Sample.world)
    (utcnow Sample.world).

(** A candidate that ties with [Sample.strong] on the four signals. *)
Definition twin : repo :=
  mk_repo "twin" "https://github.com/o/twin" "alpha" 100 "o/twin" 9
    (Some (9 # 10)) (Some 6) (Some 2%Z) (Some 45%Z) (Some (115 # 10)) None.

End Scenario.

(** ** Node 1: fetching repositories

    [fetch_repositories] (lines 78-168) with its helpers.  A string is a
    sequence of characters whose code points are below 256.  The replies of
    the GitHub API are parameters, as for the other stages; the requests are
    recorded in a history of their own. *)
Module Fetch.

Local Open Scope string_scope.

(** The line feed. *)
Definition nl : string := String (Ascii.ascii_of_nat 10) EmptyString.

(** [str.lower] on one character: the upper-case letters of ASCII and of
    Latin-1 (0xC0-0xDE but the multiplication sign 0xD7). *)
Definition lower_char (c : Ascii.ascii) : Ascii.ascii :=
  let n := Ascii.nat_of_ascii c in
  if ((65 <=? n) && (n <=? 90))%nat then Ascii.ascii_of_nat (n + 32)
  else if ((192 <=? n) && (n <=? 222) && negb (n =? 215))%nat
       then Ascii.ascii_of_nat (n + 32)
       else c.

(** [s.lower()] *)
Fixpoint str_lower (s : string) : string :=
  match s with
  | EmptyString => EmptyString
  | String c s' => String (lower_char c) (str_lower s')
  end.

(** [s.endswith(suffix)] *)
Definition str_endswith (s suffix : string) : bool :=
  let n := String.length s in
  let m := String.length suffix in
  (m <=? n)%nat && String.eqb (substring (n - m) m s) suffix.

(** The characters that [str.strip] removes: those of [str.isspace]. *)
Definition is_space (c : Ascii.ascii) : bool :=
  let n := Ascii.nat_of_ascii c in
  (((9 <=? n) && (n <=? 13)) || ((28 <=? n) && (n <=? 32))
   || (n =? 133) || (n =? 160))%nat.

Fixpoint str_lstrip (s : string) : string :=
  match s with
  | EmptyString => EmptyString
  | String c s' => if is_space c then str_lstrip s' else s
  end.

Fixpoint str_rstrip (s : string) : string :=
  match s with
  | EmptyString => EmptyString
  | String c s' =>
      match str_rstrip s' with
      | EmptyString => if is_space c then EmptyString else String c EmptyString
      | t => String c t
      end
  end.

(** [s.strip()] *)
Definition str_strip (s : string) : string := str_rstrip (str_lstrip s).

(** The truth value of a string: it is not empty. *)
Definition truthy (s : string) : bool := negb (String.eqb s "").

(** The exceptions of this stage: the division by zero of line 134, the
    [KeyError] of a subscript on a missing key, and the exception of
    [response.json()] on a body that is not JSON. *)
Inductive fetch_exn : Type :=
| ZeroDivisionError
| Missing (key : string)
| JSONDecodeError.

Inductive outcome (A : Type) : Type :=
| Returned (a : A)
| Raised (e : fetch_exn).

Arguments Returned {A} a.
Arguments Raised {A} e.

(** A request to the GitHub API: the repository search (lines 132-143),
    the README of a repository (line 85), the listing of its root
    ([None], line 118) or of a directory (line 103), and the download of a
    file (line 94). *)
Inductive request : Type :=
| Search (query : string) (per_page page : Z)
| Readme (repo_full_name : string)
| Contents (repo_full_name : string) (path : option string)
| Download (download_url : string).

(** An item of a search reply; a key may be absent. *)
Record search_item : Type := mk_search_item {
  item_html_url : option string;
  item_name : option string;
  item_full_name : option string;
  item_stargazers_count : option Z;
  item_open_issues_count : option Z
}.

(** The reply to a search: the status code and the body, [None] when it is
    not JSON and otherwise the value of ['items'] in it, the empty list when
    the key is absent. *)
Record search_response : Type := mk_search_response {
  search_status_code : Z;
  search_body : option (list search_item)
}.

(** The reply for a README: the status code and the text that decoding
    ['content'] from base64 and then from UTF-8 gives. *)
Record readme_response : Type := mk_readme_response {
  readme_status_code : Z;
  readme_text : string
}.

(** An entry of a directory listing. *)
Record entry : Type := mk_entry {
  entry_type : string;
  entry_name : string;
  entry_download_url : string
}.

Record contents_response : Type := mk_contents_response {
  contents_status_code : Z;
  contents_entries : list entry
}.

(** The replies of the API, from the requests sent so far.  A download
    answers [None] when [requests.get] raises (caught at line 97), and
    otherwise the status code and the text. *)
Record github : Type := mk_github {
  search_reply : list request -> string -> Z -> Z -> search_response;
  readme_reply : list request -> string -> readme_response;
  contents_reply : list request -> string -> option string -> contents_response;
  download_reply : list request -> string -> option (Z * string)
}.

Definition F (A : Type) : Type := list request -> outcome A * list request.

#[export] Instance F_monad : Monad F := {
  ret := fun A a h => (Returned a, h);
  bind := fun A B c k h =>
    match c h with
    | (Returned a, h') => k a h'
    | (Raised e, h') => (Raised e, h')
    end
}.

Definition raise {A : Type} (e : fetch_exn) : F A := fun h => (Raised e, h).

(** The request [r], answered by [reply] from the history before it. *)
Definition send {A : Type} (r : request) (reply : list request -> A) : F A :=
  fun h => (Returned (reply h), (h ++ [r])%list).

Section Helpers.
Variable gh : github.

(** Lines 84-90. *)
Definition fetch_readme_content (repo_full_name : string) : F string :=
  response <- send (Readme repo_full_name)
                (fun h => readme_reply gh h repo_full_name) ;;
  if (readme_status_code response =? 200)%Z then ret (readme_text response)
  else ret "".

(** Lines 92-99. *)
Definition fetch_file_content (download_url : string) : F string :=
  response <- send (Download download_url)
                (fun h => download_reply gh h download_url) ;;
  match response with
  | Some (status_code, text) =>
      if (status_code =? 200)%Z then ret text else ret ""
  | None => ret ""
  end.

(** The test of lines 108 and 123. *)
Definition is_markdown_file (item : entry) : bool :=
  String.eqb (entry_type item) "file"
  && str_endswith (str_lower (entry_name item)) ".md".

(** The loop of lines 107-110. *)
Fixpoint directory_loop (items : list entry) (md_content : string) : F string :=
  match items with
  | [] => ret md_content
  | item :: items' =>
      if is_markdown_file item then
        content <- fetch_file_content (entry_download_url item) ;;
        directory_loop items'
          (md_content ++ (nl ++ nl ++ "# " ++ entry_name item ++ nl) ++ content)
      else directory_loop items' md_content
  end.

(** Lines 101-111. *)
Definition fetch_directory_markdown (repo_full_name path : string) : F string :=
  response <- send (Contents repo_full_name (Some path))
                (fun h => contents_reply gh h repo_full_name (Some path)) ;;
  if (contents_status_code response =? 200)%Z
  then directory_loop (contents_entries response) ""
  else ret "".

(** The loop of lines 122-128. *)
Fixpoint root_loop (repo_full_name : string) (items : list entry)
    (doc_text : string) : F string :=
  match items with
  | [] => ret doc_text
  | item :: items' =>
      if is_markdown_file item then
        if negb (String.eqb (str_lower (entry_name item)) "readme.md") then
          content <- fetch_file_content (entry_download_url item) ;;
          root_loop repo_full_name items'
            (doc_text ++ (nl ++ nl ++ "# " ++ entry_name item ++ nl) ++ content)
        else root_loop repo_full_name items' doc_text
      else if String.eqb (entry_type item) "dir"
              && (String.eqb (str_lower (entry_name item)) "docs"
                  || String.eqb (str_lower (entry_name item)) "documentation")
      then
        markdown <- fetch_directory_markdown repo_full_name (entry_name item) ;;
        root_loop repo_full_name items'
          (doc_text ++ (nl ++ nl ++ "# " ++ entry_name item ++ " folder" ++ nl)
           ++ markdown)
      else root_loop repo_full_name items' doc_text
  end.

(** Lines 113-129. *)
Definition fetch_repo_documentation (repo_full_name : string) : F string :=
  readme <- fetch_readme_content repo_full_name ;;
  let doc_text := if truthy readme then "" ++ ("# README" ++ nl) ++ readme else "" in
  response <- send (Contents repo_full_name None)
                (fun h => contents_reply gh h repo_full_name None) ;;
  doc_text <- (if (contents_status_code response =? 200)%Z
               then root_loop repo_full_name (contents_entries response) doc_text
               else ret doc_text) ;;
  if truthy (str_strip doc_text) then ret doc_text
  else ret "No documentation available.".

(** The loop of lines 150-162. *)
Fixpoint items_loop (items : list search_item) (repositories : list repo)
    : F (list repo) :=
  match items with
  | [] => ret repositories
  | item :: items' =>
      repo_link <- match item_html_url item with
                   | Some url => ret url
                   | None => raise (Missing "html_url")
                   end ;;
      let full_name := dict_get (item_full_name item) "" in
      doc_content <- fetch_repo_documentation full_name ;;
      let star_count := dict_get (item_stargazers_count item) 0%Z in
      items_loop items'
        (repositories
         ++ [mk_repo (dict_get (item_name item) "No title available")
               repo_link doc_content star_count full_name
               (dict_get (item_open_issues_count item) 0%Z)
               None None None None None None])%list
  end.

(** The loop of lines 135-162, over the pages still to request.  The body
    is decoded on both branches: for the message of the error that line 145
    logs, and for the items (line 147). *)
Fixpoint pages_loop (query : string) (per_page : Z) (pages : list Z)
    (repositories : list repo) : F (list repo) :=
  match pages with
  | [] => ret repositories
  | page :: pages' =>
      response <- send (Search query per_page page)
                    (fun h => search_reply gh h query per_page page) ;;
      match search_body response with
      | None => raise JSONDecodeError
      | Some items =>
          if negb (search_status_code response =? 200)%Z then ret repositories
          else
            match items with
            | [] => ret repositories
            | _ :: _ =>
                repositories' <- items_loop items repositories ;;
                pages_loop query per_page pages' repositories'
            end
      end
  end.

(** [range(1, stop)] *)
Definition range_from_1 (stop : Z) : list Z :=
  map Z.of_nat (seq 1 (Z.to_nat (stop - 1))).

(** Lines 131-164; [//] is the floor division and raises on a zero
    divisor. *)
Definition fetch_github_repositories (query : string) (max_results per_page : Z)
    : F (list repo) :=
  if (per_page =? 0)%Z then raise ZeroDivisionError
  else
    let num_pages := (max_results / per_page)%Z in
    pages_loop query per_page (range_from_1 (num_pages + 1)) [].

End Helpers.

(** The search requests of a history. *)
Definition search_requests (h : list request) : list request :=
  filter (fun r => match r with Search _ _ _ => true | _ => false end) h.

(** A repository as this stage builds it: documentation that is not blank
    and none of the keys of the later stages. *)
Definition freshly_fetched (r : repo) : Prop :=
  str_strip (combined_doc r) <> ""
  /\ semantic_similarity r = None /\ cross_encoder_score r = None
  /\ pr_count r = None /\ latest_commit_days r = None
  /\ activity_score r = None /\ final_score r = None.

(** A sample API: one page of two repositories, the first with a README
    and a CONTRIBUTING.md at its root, the second with nothing. *)
Definition sample_github : github :=
  mk_github
    (fun _ _ _ page =>
       if (page =? 1)%Z then
         mk_search_response 200
           (Some [mk_search_item (Some "https://github.com/o/a") (Some "a")
                    (Some "o/a") (Some 10%Z) (Some 7%Z);
                  mk_search_item (Some "https://github.com/o/b") None
                    (Some "o/b") None None])
       else mk_search_response 200 (Some []))
    (fun _ name =>
       if String.eqb name "o/a" then mk_readme_response 200 "alpha"
       else mk_readme_response 404 "")
    (fun _ name path =>
       if String.eqb name "o/a" then
         mk_contents_response 200
           [mk_entry "file" "README.md" "https://raw/o/a/README.md";
            mk_entry "file" "CONTRIBUTING.md" "https://raw/o/a/CONTRIBUTING.md"]
       else mk_contents_response 404 [])
    (fun _ url => Some (200%Z, "how to contribute")).

End Fetch.

(** * Properties *)

(** ** Comparisons of floats *)

Lemma Qlt_bool_iff (x y : Q) : Qlt_bool x y = true <-> x < y.
Proof.
  unfold Qlt_bool. rewrite negb_true_iff.
  split; intro H.
  - apply Qnot_le_lt. intro Hle. apply Qle_bool_iff in Hle. congruence.
  - destruct (Qle_bool y x) eqn:E; [|reflexivity].
    apply Qle_bool_iff in E. exfalso. apply (Qlt_not_le _ _ H E).
Qed.

Lemma Qlt_bool_false_iff (x y : Q) : Qlt_bool x y = false <-> y <= x.
Proof.
  unfold Qlt_bool. rewrite negb_false_iff. apply Qle_bool_iff.
Qed.

Lemma Qle_bool_false_iff (x y : Q) : Qle_bool x y = false <-> y < x.
Proof.
  rewrite <- Qlt_bool_iff. unfold Qlt_bool.
  destruct (Qle_bool x y); simpl; split; congruence.
Qed.

(** ** [sorted]: a stable descending sort *)

Section PySortedFacts.
Context {A : Type}.
Variable key : A -> Q.

Lemma insert_reverse_perm (x : A) (l : list A) :
  Permutation (x :: l) (insert_reverse key x l).
Proof.
  induction l as [|y l IH]; simpl.
  - apply Permutation_refl.
  - destruct (Qle_bool (key y) (key x)).
    + apply Permutation_refl.
    + apply perm_trans with (y :: x :: l).
      * apply perm_swap.
      * apply perm_skip, IH.
Qed.

Lemma sorted_reverse_perm (l : list A) : Permutation l (sorted_reverse key l).
Proof.
  induction l as [|x l IH]; simpl.
  - apply perm_nil.
  - apply perm_trans with (x :: sorted_reverse key l).
    + apply perm_skip, IH.
    + apply insert_reverse_perm.
Qed.

Lemma sorted_reverse_length (l : list A) :
  List.length (sorted_reverse key l) = List.length l.
Proof.
  symmetry. apply Permutation_length, sorted_reverse_perm.
Qed.

Lemma key_ge_trans (x y z : A) : key_ge key x y -> key_ge key y z -> key_ge key x z.
Proof.
  unfold key_ge. intros Hxy Hyz. apply Qle_trans with (key y); assumption.
Qed.

Lemma insert_reverse_sorted (x : A) (l : list A) :
  StronglySorted (key_ge key) l ->
  StronglySorted (key_ge key) (insert_reverse key x l).
Proof.
  induction 1 as [|y l Hsorted IH Hall]; simpl.
  - constructor; constructor.
  - destruct (Qle_bool (key y) (key x)) eqn:E.
    + apply Qle_bool_iff in E.
      constructor.
      * constructor; assumption.
      * constructor; [exact E|].
        eapply Forall_impl; [|exact Hall].
        intros z Hz. apply key_ge_trans with y; [exact E | exact Hz].
    + apply Qle_bool_false_iff in E.
      constructor; [exact IH|].
      apply Forall_forall. intros z Hz.
      apply Permutation_in with (l' := x :: l) in Hz;
        [|apply Permutation_sym, insert_reverse_perm].
      destruct Hz as [<- | Hz].
      * unfold key_ge. apply Qlt_le_weak, E.
      * rewrite Forall_forall in Hall. apply Hall, Hz.
Qed.

Lemma sorted_reverse_sorted (l : list A) :
  StronglySorted (key_ge key) (sorted_reverse key l).
Proof.
  induction l as [|x l IH]; simpl.
  - constructor.
  - apply insert_reverse_sorted, IH.
Qed.

Lemma insert_reverse_with_key (k : Q) (x : A) (l : list A) :
  with_key key k (insert_reverse key x l) = with_key key k (x :: l).
Proof.
  induction l as [|y l IH]; [reflexivity|].
  simpl insert_reverse.
  destruct (Qle_bool (key y) (key x)) eqn:E; [reflexivity|].
  apply Qle_bool_false_iff in E.
  change (with_key key k (y :: insert_reverse key x l))
    with (if Qeq_bool (key y) k
          then y :: with_key key k (insert_reverse key x l)
          else with_key key k (insert_reverse key x l)).
  rewrite IH. unfold with_key. simpl.
  destruct (Qeq_bool (key y) k) eqn:Ey, (Qeq_bool (key x) k) eqn:Ex;
    try reflexivity.
  apply Qeq_bool_iff in Ey, Ex. exfalso.
  rewrite Ey, Ex in E. apply (Qlt_irrefl k E).
Qed.

(** Stability: among the elements of one key the order is the input's. *)
Lemma sorted_reverse_stable (k : Q) (l : list A) :
  with_key key k (sorted_reverse key l) = with_key key k l.
Proof.
  induction l as [|x l IH]; [reflexivity|].
  simpl sorted_reverse. rewrite insert_reverse_with_key.
  unfold with_key in *. simpl. rewrite IH. reflexivity.
Qed.

Lemma with_key_compat (k k' : Q) (l : list A) :
  k == k' -> with_key key k l = with_key key k' l.
Proof.
  intro Hk. unfold with_key. apply filter_ext. intro x.
  destruct (Qeq_bool (key x) k) eqn:E, (Qeq_bool (key x) k') eqn:E';
    try reflexivity.
  - apply Qeq_bool_iff in E. apply Qeq_bool_neq in E'.
    exfalso. apply E'. rewrite <- Hk. exact E.
  - apply Qeq_bool_neq in E. apply Qeq_bool_iff in E'.
    exfalso. apply E. rewrite Hk. exact E'.
Qed.

Lemma with_key_In (k : Q) (x : A) (l : list A) :
  In x (with_key key k l) <-> In x l /\ key x == k.
Proof.
  unfold with_key. rewrite filter_In, Qeq_bool_iff. reflexivity.
Qed.

(** Two descending lists that agree key by key are the same list. *)
Lemma descending_stable_unique (l1 l2 : list A) :
  StronglySorted (key_ge key) l1 ->
  StronglySorted (key_ge key) l2 ->
  (forall k, with_key key k l1 = with_key key k l2) ->
  l1 = l2.
Proof.
  intro Hsorted1. revert l2.
  induction Hsorted1 as [|x l1 Hsorted1 IH Hx]; intros l2 Hsorted2 Hkeys.
  - destruct l2 as [|y l2]; [reflexivity|].
    specialize (Hkeys (key y)). unfold with_key in Hkeys. simpl in Hkeys.
    rewrite Qeq_bool_refl in Hkeys. discriminate.
  - destruct Hsorted2 as [|y l2 Hsorted2 Hy].
    + specialize (Hkeys (key x)). unfold with_key in Hkeys. simpl in Hkeys.
      rewrite Qeq_bool_refl in Hkeys. discriminate.
    + rewrite Forall_forall in Hx, Hy. unfold key_ge in Hx, Hy.
      assert (Hxy : key x == key y).
      { apply Qle_antisym.
        - assert (Hin : In x (with_key key (key x) (y :: l2))).
          { rewrite <- Hkeys. apply with_key_In.
            split; [left|]; reflexivity. }
          apply with_key_In in Hin. destruct Hin as [[-> | Hin] _].
          + apply Qle_refl.
          + apply Hy, Hin.
        - assert (Hin : In y (with_key key (key y) (x :: l1))).
          { rewrite Hkeys. apply with_key_In.
            split; [left|]; reflexivity. }
          apply with_key_In in Hin. destruct Hin as [[-> | Hin] _].
          + apply Qle_refl.
          + apply Hx, Hin. }
      assert (Hhead : x = y /\ with_key key (key x) l1 = with_key key (key x) l2).
      { pose proof (Hkeys (key x)) as Hk. unfold with_key in Hk |- *.
        simpl in Hk. rewrite Qeq_bool_refl in Hk.
        assert (Ey : Qeq_bool (key y) (key x) = true).
        { apply Qeq_bool_iff. symmetry. exact Hxy. }
        rewrite Ey in Hk. injection Hk as Hk1 Hk2. split; assumption. }
      destruct Hhead as [<- Htail]. f_equal.
      apply IH; [exact Hsorted2|].
      intro k. destruct (Qeq_bool (key x) k) eqn:E.
      * apply Qeq_bool_iff in E.
        rewrite <- (with_key_compat _ _ l1 E), <- (with_key_compat _ _ l2 E).
        exact Htail.
      * pose proof (Hkeys k) as Hk. unfold with_key in Hk |- *.
        simpl in Hk. rewrite E in Hk. exact Hk.
Qed.

(** [sorted_reverse] returns the only list that is in descending order of
    the keys and keeps, key by key, the order of the input: the list that
    any stable sort returns. *)
Lemma sorted_reverse_unique (l l' : list A) :
  StronglySorted (key_ge key) l' ->
  (forall k, with_key key k l' = with_key key k l) ->
  l' = sorted_reverse key l.
Proof.
  intros Hsorted Hstable.
  apply descending_stable_unique;
    [exact Hsorted | apply sorted_reverse_sorted|].
  intro k. rewrite sorted_reverse_stable. apply Hstable.
Qed.

End PySortedFacts.

(** ** Node 4: the quality filter *)

Lemma low_signal_iff (cfg : AgentConfiguration) (r : repo) :
  low_signal cfg r = true <-> below_both_thresholds cfg r.
Proof.
  unfold low_signal, below_both_thresholds, reranker_signal.
  rewrite andb_true_iff, Z.ltb_lt, Qlt_bool_iff. reflexivity.
Qed.

(** The loop keeps, in order, the candidates that are not low on both
    signals. *)
Lemma filter_loop (cfg : AgentConfiguration) (l filtered : list repo) :
  fold_left (filter_step cfg) l filtered
  = filtered ++ filter (fun r => negb (low_signal cfg r)) l.
Proof.
  revert filtered.
  induction l as [|r l IH]; intro filtered; simpl.
  - symmetry. apply app_nil_r.
  - rewrite IH. unfold filter_step.
    destruct (low_signal cfg r); simpl; [reflexivity|].
    rewrite <- app_assoc. reflexivity.
Qed.

Lemma filter_candidates_cases (cfg : AgentConfiguration) (l : list repo) :
  let kept := filter (fun r => negb (low_signal cfg r)) l in
  (kept = [] /\ filter_candidates cfg l = l)
  \/ (kept <> [] /\ filter_candidates cfg l = kept).
Proof.
  unfold filter_candidates. rewrite filter_loop. simpl.
  destruct (filter (fun r => negb (low_signal cfg r)) l) eqn:E.
  - left. split; reflexivity.
  - right. split; [discriminate | reflexivity].
Qed.

Lemma kept_nil_iff (cfg : AgentConfiguration) (l : list repo) :
  filter (fun r => negb (low_signal cfg r)) l = []
  <-> forall r, In r l -> below_both_thresholds cfg r.
Proof.
  split.
  - intros Hnil r Hin. apply low_signal_iff.
    destruct (low_signal cfg r) eqn:E; [reflexivity|].
    assert (Hkept : In r (filter (fun r => negb (low_signal cfg r)) l)).
    { apply filter_In. split; [exact Hin|]. rewrite E. reflexivity. }
    rewrite Hnil in Hkept. destruct Hkept.
  - intro Hall. induction l as [|r l IH]; [reflexivity|].
    simpl. assert (Hr : low_signal cfg r = true).
    { apply low_signal_iff, Hall. left. reflexivity. }
    rewrite Hr. simpl. apply IH. intros r' Hin. apply Hall. right. exact Hin.
Qed.

Lemma filter_subsequence {A : Type} (f : A -> bool) (l : list A) :
  subsequence (filter f l) l.
Proof.
  induction l as [|x l IH]; simpl.
  - constructor.
  - destruct (f x); constructor; exact IH.
Qed.

Lemma subsequence_refl {A : Type} (l : list A) : subsequence l l.
Proof.
  induction l as [|x l IH]; constructor; exact IH.
Qed.

(** C3. Quality filter postcondition: on a non-empty input, when some
    candidate is not low on both signals the output holds exactly the
    candidates that are not below both thresholds (a candidate is removed if
    and only if its stars are below [min_stars] and its reranker score below
    the threshold); when every candidate is, the output is the input list;
    in both cases the output is not empty. *)
Theorem filter_candidates_postcondition
    (cfg : AgentConfiguration) (l : list repo) :
  l <> [] ->
  ((exists r, In r l /\ ~ below_both_thresholds cfg r) ->
   forall r, In r (filter_candidates cfg l)
             <-> In r l /\ ~ below_both_thresholds cfg r)
  /\ ((forall r, In r l -> below_both_thresholds cfg r) ->
      filter_candidates cfg l = l)
  /\ filter_candidates cfg l <> [].
Proof.
  intro Hne.
  destruct (filter_candidates_cases cfg l) as [[Hnil Heq] | [Hkept Heq]].
  - split; [|split].
    + intros [r [Hin Hhigh]]. exfalso. apply Hhigh.
      apply (proj1 (kept_nil_iff cfg l) Hnil), Hin.
    + intros _. exact Heq.
    + rewrite Heq. exact Hne.
  - split; [|split].
    + intros _ r. rewrite Heq, filter_In, negb_true_iff.
      rewrite <- low_signal_iff.
      destruct (low_signal cfg r); split; intros [Hin H]; split;
        congruence || (try exact Hin).
    + intro Hall. exfalso. apply Hkept. apply kept_nil_iff, Hall.
    + rewrite Heq. exact Hkept.
Qed.

(** The filter scenario of the specification: A (10 stars, score 2.0) is
    dropped and B (5 stars, score 6.0) is kept. *)
Lemma filter_candidates_postcondition_witness :
  [Sample.A_reranked; Sample.B_reranked] <> []
  /\ filter_candidates (Sample.config 100) [Sample.A_reranked; Sample.B_reranked]
     = [Sample.B_reranked]
  /\ filter_candidates (Sample.config 100) [Sample.A_reranked; Sample.B_reranked]
     <> [].
Proof.
  split; [discriminate|].
  split; [reflexivity|].
  apply (filter_candidates_postcondition (Sample.config 100)
           [Sample.A_reranked; Sample.B_reranked]).
  discriminate.
Defined.

(** C9. Filter order preservation: the output of the quality filter is a
    subsequence of its input, and it is the input list itself when every
    candidate is below both thresholds. *)
Theorem filter_candidates_subsequence
    (cfg : AgentConfiguration) (l : list repo) :
  subsequence (filter_candidates cfg l) l
  /\ ((forall r, In r l -> below_both_thresholds cfg r) ->
      filter_candidates cfg l = l).
Proof.
  destruct (filter_candidates_cases cfg l) as [[Hnil Heq] | [Hkept Heq]].
  - rewrite Heq. split; [apply subsequence_refl | reflexivity].
  - split.
    + rewrite Heq. apply filter_subsequence.
    + intro Hall. exfalso. apply Hkept, kept_nil_iff, Hall.
Qed.

(** ** Node 5: activity analysis *)

(** The two lookups of [analyze_repository_activity] and what it returns. *)
Lemma analyze_repository_activity_returns
    (env : environment) (r : repo) (h : history) :
  let name := full_name r in
  let pulls := get_pulls env h name in
  let h1 := h ++ [Get_pulls name] in
  let commits := get_commits env h1 name in
  let h2 := h1 ++ [Get_commits name] in
  let pr_count :=
    if (pulls_status_code pulls =? 200)%Z
    then Z.of_nat (List.length (pulls_json pulls)) else 0%Z in
  let found :=
    if (commits_status_code commits =? 200)%Z
    then hd_error (commits_json commits) else None in
  let days_diff :=
    match found with
    | Some commit_date => ((utcnow env h2 - commit_date) / microseconds_per_day)%Z
    | None => 999%Z
    end in
  let h' := match found with Some _ => h2 ++ [Utcnow] | None => h2 end in
  analyze_repository_activity env r h
  = (Ok (mk_activity_data pr_count days_diff
           (inject_Z (3 * pr_count + Z.max 0 (open_issues_count r - pr_count))
            - inject_Z days_diff / 30)),
     h').
Proof.
  unfold analyze_repository_activity, invoke. simpl.
  destruct (commits_status_code _ =? 200)%Z; [|reflexivity].
  destruct (commits_json _); reflexivity.
Qed.

(** The activity score when both lookups reply: it is
    3*prCount + max(0, openIssueCount - prCount) - daysSinceCommit/30,
    where prCount is the length of the pull-request page (0 when the status
    of that reply is not 200), and daysSinceCommit is 999 when the reply to
    the commit lookup has another status than 200 or no commit, and
    otherwise the floor of the days elapsed since the first commit
    returned. *)
Theorem analyze_repository_activity_formula
    (env : environment) (r : repo) (h : history) :
  let name := full_name r in
  let pulls := get_pulls env h name in
  let h1 := h ++ [Get_pulls name] in
  let commits := get_commits env h1 name in
  let h2 := h1 ++ [Get_commits name] in
  exists d h',
    analyze_repository_activity env r h = (Ok d, h')
    /\ data_activity_score d
       == activity_formula (data_pr_count d) (open_issues_count r)
            (data_latest_commit_days d)
    /\ data_pr_count d
       = (if (pulls_status_code pulls =? 200)%Z
          then Z.of_nat (List.length (pulls_json pulls)) else 0%Z)
    /\ (commits_status_code commits <> 200%Z \/ commits_json commits = [] ->
        data_latest_commit_days d = 999%Z)
    /\ (forall commit_date rest,
          commits_status_code commits = 200%Z ->
          commits_json commits = commit_date :: rest ->
          let elapsed := (utcnow env h2 - commit_date)%Z in
          (data_latest_commit_days d * microseconds_per_day <= elapsed
           < (data_latest_commit_days d + 1) * microseconds_per_day)%Z).
Proof.
  intros name pulls h1 commits h2.
  pose proof (analyze_repository_activity_returns env r h) as Hrun.
  cbv zeta in Hrun. fold name pulls h1 commits h2 in Hrun.
  eexists. eexists. split; [exact Hrun|].
  cbn [data_activity_score data_pr_count data_latest_commit_days hd_error].
  split; [|split; [reflexivity|split]].
  - unfold activity_formula.
    rewrite inject_Z_plus, inject_Z_mult. reflexivity.
  - intros [Hstatus | Hempty].
    + apply Z.eqb_neq in Hstatus. rewrite Hstatus. reflexivity.
    + rewrite Hempty.
      destruct (commits_status_code commits =? 200)%Z; reflexivity.
  - intros commit_date rest Hstatus Hjson.
    apply Z.eqb_eq in Hstatus. rewrite Hstatus, Hjson.
    cbn [hd_error]. set (elapsed := (utcnow env h2 - commit_date)%Z).
    unfold microseconds_per_day.
    pose proof (Z.div_mod elapsed 86400000000 ltac:(lia)) as Hdiv.
    pose proof (Z.mod_pos_bound elapsed 86400000000 ltac:(lia)) as Hmod.
    lia.
Qed.

Lemma update_activity_frame (d : activity_data) (r : repo) :
  same_but_activity r (update_activity d r).
Proof.
  unfold same_but_activity. simpl. repeat split; reflexivity.
Qed.

(** C10. Activity stage frame property: the stage never raises and returns
    as many candidates as it was given, in the same order, each equal to the
    input candidate on every key but [pr_count], [latest_commit_days] and
    [activity_score]. *)
Theorem analyze_activity_frame
    (env : environment) (l : list repo) (h : history) :
  exists out h',
    analyze_activity env l h = (Ok out, h')
    /\ List.length out = List.length l
    /\ Forall2 same_but_activity l out.
Proof.
  revert h. induction l as [|r l IH]; intro h.
  - exists [], h. repeat split. constructor.
  - simpl.
    rewrite (analyze_repository_activity_returns env r h). cbv zeta.
    match goal with
    | |- context [analyze_activity env l ?h1] =>
        destruct (IH h1) as [out [h' [Hrun [Hlen Hframe]]]]; rewrite Hrun
    end.
    eexists. eexists. split; [reflexivity|]. split.
    + simpl. rewrite Hlen. reflexivity.
    + constructor; [apply update_activity_frame | exact Hframe].
Qed.

(** ** The signal normalizer *)

Lemma fold_min_spec (l : list Q) (x : Q) :
  let m := fold_left (fun m y => if Qlt_bool y m then y else m) l x in
  In m (x :: l) /\ m <= x /\ Forall (Qle m) l.
Proof.
  revert x. induction l as [|y l IH]; intro x; simpl.
  - split; [left; reflexivity|]. split; [apply Qle_refl | constructor].
  - destruct (Qlt_bool y x) eqn:E.
    + apply Qlt_bool_iff in E.
      destruct (IH y) as [Hin [Hle Hall]]. simpl in Hin.
      split; [right; exact Hin|]. split.
      * apply Qle_trans with y; [exact Hle | apply Qlt_le_weak, E].
      * constructor; assumption.
    + apply Qlt_bool_false_iff in E.
      destruct (IH x) as [Hin [Hle Hall]]. simpl in Hin.
      split; [destruct Hin as [Hin | Hin]; [left | right; right]; exact Hin|].
      split; [exact Hle|].
      constructor; [apply Qle_trans with x; assumption | exact Hall].
Qed.

Lemma fold_max_spec (l : list Q) (x : Q) :
  let m := fold_left (fun m y => if Qlt_bool m y then y else m) l x in
  In m (x :: l) /\ x <= m /\ Forall (fun y => y <= m) l.
Proof.
  revert x. induction l as [|y l IH]; intro x; simpl.
  - split; [left; reflexivity|]. split; [apply Qle_refl | constructor].
  - destruct (Qlt_bool x y) eqn:E.
    + apply Qlt_bool_iff in E.
      destruct (IH y) as [Hin [Hle Hall]]. simpl in Hin.
      split; [right; exact Hin|]. split.
      * apply Qle_trans with y; [apply Qlt_le_weak, E | exact Hle].
      * constructor; assumption.
    + apply Qlt_bool_false_iff in E.
      destruct (IH x) as [Hin [Hle Hall]]. simpl in Hin.
      split; [destruct Hin as [Hin | Hin]; [left | right; right]; exact Hin|].
      split; [exact Hle|].
      constructor; [apply Qle_trans with x; assumption | exact Hall].
Qed.

(** [min] returns an element of the list that is below all of them. *)
Lemma py_min_spec (l : list Q) (m : Q) :
  py_min l = Ok m -> In m l /\ Forall (Qle m) l.
Proof.
  destruct l as [|x l]; [discriminate|].
  simpl. intro H. injection H as <-.
  destruct (fold_min_spec l x) as [Hin [Hle Hall]].
  split; [exact Hin | constructor; assumption].
Qed.

(** [max] returns an element of the list that is above all of them. *)
Lemma py_max_spec (l : list Q) (m : Q) :
  py_max l = Ok m -> In m l /\ Forall (fun y => y <= m) l.
Proof.
  destruct l as [|x l]; [discriminate|].
  simpl. intro H. injection H as <-.
  destruct (fold_max_spec l x) as [Hin [Hle Hall]].
  split; [exact Hin | constructor; assumption].
Qed.

Lemma normalize_formula (val min_val max_val : Q) :
  ~ max_val == min_val ->
  normalize val min_val max_val = (val - min_val) / (max_val - min_val).
Proof.
  intro Hne. unfold normalize.
  destruct (Qeq_bool (max_val - min_val) 0) eqn:E; [|reflexivity].
  apply Qeq_bool_iff in E. exfalso. apply Hne. lra.
Qed.

Lemma normalize_degenerate (val min_val max_val : Q) :
  max_val == min_val -> normalize val min_val max_val = 1 # 2.
Proof.
  intro Heq. unfold normalize.
  destruct (Qeq_bool (max_val - min_val) 0) eqn:E; [reflexivity|].
  apply Qeq_bool_neq in E. exfalso. apply E. lra.
Qed.

Lemma normalize_range (val min_val max_val : Q) :
  min_val < max_val -> min_val <= val <= max_val ->
  0 <= normalize val min_val max_val <= 1.
Proof.
  intros Hlt [Hlo Hhi].
  rewrite normalize_formula by lra.
  split.
  - apply Qle_shift_div_l; lra.
  - apply Qle_shift_div_r; lra.
Qed.

Lemma normalize_max (min_val max_val : Q) :
  min_val < max_val -> normalize max_val min_val max_val == 1.
Proof.
  intro Hlt. rewrite normalize_formula by lra. field. lra.
Qed.

Lemma normalize_min (min_val max_val : Q) :
  min_val < max_val -> normalize min_val min_val max_val == 0.
Proof.
  intro Hlt. rewrite normalize_formula by lra. field. lra.
Qed.

(** C5. Signal normalizer contract: with [min_val] and [max_val] the least
    and the greatest value observed over a list of signal values, when
    [max_val > min_val] the normalizer returns
    [(val - min_val) / (max_val - min_val)] for every value, every value of
    the list is sent into [0,1], the greatest to 1 and the least to 0 (both
    are values of the list); when [max_val == min_val] it returns exactly
    1/2 for every value. *)
Theorem normalize_contract (values : list Q) (min_val max_val : Q) :
  py_min values = Ok min_val ->
  py_max values = Ok max_val ->
  (min_val < max_val ->
   (forall val,
      normalize val min_val max_val == (val - min_val) / (max_val - min_val))
   /\ Forall (fun val => 0 <= normalize val min_val max_val <= 1) values
   /\ In max_val values /\ normalize max_val min_val max_val == 1
   /\ In min_val values /\ normalize min_val min_val max_val == 0)
  /\ (max_val == min_val ->
      forall val, normalize val min_val max_val = 1 # 2).
Proof.
  intros Hmin Hmax.
  apply py_min_spec in Hmin. destruct Hmin as [Hmin_in Hmin_le].
  apply py_max_spec in Hmax. destruct Hmax as [Hmax_in Hmax_ge].
  split.
  - intro Hlt. split; [|split; [|split; [|split; [|split]]]].
    + intro val. rewrite normalize_formula by lra. reflexivity.
    + rewrite Forall_forall in *. intros val Hin.
      apply normalize_range; [exact Hlt|].
      split; [apply Hmin_le | apply Hmax_ge]; exact Hin.
    + exact Hmax_in.
    + apply normalize_max, Hlt.
    + exact Hmin_in.
    + apply normalize_min, Hlt.
  - intros Heq val. apply normalize_degenerate, Heq.
Qed.

(** The values 2, 6 and 4: all are sent into [0,1], 6 to 1 and 2 to 0. *)
Lemma normalize_contract_witness :
  py_min [2; 6; 4] = Ok 2 /\ py_max [2; 6; 4] = Ok 6
  /\ Forall (fun val => 0 <= normalize val 2 6 <= 1) [2; 6; 4]
  /\ normalize 6 2 6 == 1 /\ normalize 2 2 6 == 0.
Proof.
  split; [reflexivity|]. split; [reflexivity|].
  destruct (normalize_contract [2; 6; 4] 2 6 eq_refl eq_refl) as [Hspread _].
  destruct (Hspread eq_refl) as (_ & Hrange & _ & Hmax & _ & Hmin).
  split; [exact Hrange|]. split; [exact Hmax | exact Hmin].
Defined.

(** ** Least and greatest values *)

Lemma minimum_spec (x : Q) (l : list Q) :
  (exists y, In y (x :: l) /\ y == minimum (x :: l))
  /\ Forall (Qle (minimum (x :: l))) (x :: l).
Proof.
  simpl. induction l as [|y l [[z [Hin Heq]] Hall]]; simpl.
  - split; [exists x; split; [left|]; reflexivity|].
    constructor; [apply Qle_refl | constructor].
  - set (m := fold_right Qmin x l) in *.
    split.
    + destruct (Q.min_spec y m) as [[_ Hmin] | [_ Hmin]].
      * exists y. split; [right; left; reflexivity | symmetry; exact Hmin].
      * exists z. split.
        -- destruct Hin as [Hin | Hin]; [left | right; right]; exact Hin.
        -- apply Qeq_trans with m; [exact Heq | symmetry; exact Hmin].
    + assert (Hbelow : forall a, m <= a -> Qmin y m <= a).
      { intros a Ha. apply Qle_trans with m; [apply Q.le_min_r | exact Ha]. }
      inversion Hall as [|? ? Hx Hl]; subst.
      constructor; [apply Hbelow, Hx|].
      constructor; [apply Q.le_min_l|].
      eapply Forall_impl; [|exact Hl]. exact Hbelow.
Qed.

Lemma maximum_spec (x : Q) (l : list Q) :
  (exists y, In y (x :: l) /\ y == maximum (x :: l))
  /\ Forall (fun y => y <= maximum (x :: l)) (x :: l).
Proof.
  simpl. induction l as [|y l [[z [Hin Heq]] Hall]]; simpl.
  - split; [exists x; split; [left|]; reflexivity|].
    constructor; [apply Qle_refl | constructor].
  - set (m := fold_right Qmax x l) in *.
    split.
    + destruct (Q.max_spec y m) as [[_ Hmax] | [_ Hmax]].
      * exists z. split.
        -- destruct Hin as [Hin | Hin]; [left | right; right]; exact Hin.
        -- apply Qeq_trans with m; [exact Heq | symmetry; exact Hmax].
      * exists y. split; [right; left; reflexivity | symmetry; exact Hmax].
    + assert (Habove : forall a, a <= m -> a <= Qmax y m).
      { intros a Ha. apply Qle_trans with m; [exact Ha | apply Q.le_max_r]. }
      inversion Hall as [|? ? Hx Hl]; subst.
      constructor; [apply Habove, Hx|].
      constructor; [apply Q.le_max_l|].
      eapply Forall_impl; [|exact Hl]. exact Habove.
Qed.

(** On a non-empty list [min] returns the least value. *)
Lemma py_min_minimum (l : list Q) :
  l <> [] -> exists m, py_min l = Ok m /\ m == minimum l.
Proof.
  destruct l as [|x l]; [congruence|]. intros _.
  eexists. split; [reflexivity|].
  destruct (fold_min_spec l x) as [Hin [Hle Hall]].
  destruct (minimum_spec x l) as [[y [Hy Heq]] Hleast].
  set (m := fold_left _ l x) in *.
  apply Qle_antisym.
  - rewrite <- Heq.
    assert (Hm : Forall (Qle m) (x :: l)) by (constructor; assumption).
    rewrite Forall_forall in Hm. apply Hm, Hy.
  - rewrite Forall_forall in Hleast. apply Hleast, Hin.
Qed.

(** On a non-empty list [max] returns the greatest value. *)
Lemma py_max_maximum (l : list Q) :
  l <> [] -> exists m, py_max l = Ok m /\ m == maximum l.
Proof.
  destruct l as [|x l]; [congruence|]. intros _.
  eexists. split; [reflexivity|].
  destruct (fold_max_spec l x) as [Hin [Hle Hall]].
  destruct (maximum_spec x l) as [[y [Hy Heq]] Hgreatest].
  set (m := fold_left _ l x) in *.
  apply Qle_antisym.
  - rewrite Forall_forall in Hgreatest. apply Hgreatest, Hin.
  - rewrite <- Heq.
    assert (Hm : Forall (fun y => y <= m) (x :: l)) by (constructor; assumption).
    rewrite Forall_forall in Hm. apply Hm, Hy.
Qed.

Lemma normalize_compat (val min_val max_val val' min_val' max_val' : Q) :
  val == val' -> min_val == min_val' -> max_val == max_val' ->
  normalize val min_val max_val == normalize val' min_val' max_val'.
Proof.
  intros Hval Hmin Hmax. unfold normalize.
  destruct (Qeq_bool (max_val - min_val) 0) eqn:E,
           (Qeq_bool (max_val' - min_val') 0) eqn:E'.
  - reflexivity.
  - apply Qeq_bool_iff in E. apply Qeq_bool_neq in E'.
    exfalso. apply E'. rewrite <- Hmin, <- Hmax. exact E.
  - apply Qeq_bool_neq in E. apply Qeq_bool_iff in E'.
    exfalso. apply E. rewrite Hmin, Hmax. exact E'.
  - rewrite Hval, Hmin, Hmax. reflexivity.
Qed.

Lemma minimum_least (l : list Q) :
  l <> [] ->
  (exists y, In y l /\ y == minimum l) /\ Forall (Qle (minimum l)) l.
Proof.
  destruct l as [|x l]; [congruence|]. intros _. apply minimum_spec.
Qed.

Lemma maximum_greatest (l : list Q) :
  l <> [] ->
  (exists y, In y l /\ y == maximum l) /\ Forall (fun y => y <= maximum l) l.
Proof.
  destruct l as [|x l]; [congruence|]. intros _. apply maximum_spec.
Qed.

(** A candidate strictly above all the others on a signal, and not alone,
    is normalized to 1 on it. *)
Lemma normalized_unique_maximum
    (signal : repo -> Q) (before : list repo) (r : repo) (after : list repo) :
  before ++ after <> [] ->
  unique_maximum signal before r after ->
  normalized signal (before ++ r :: after) r == 1.
Proof.
  intros Hothers Hunique. unfold unique_maximum in Hunique.
  rewrite Forall_forall in Hunique.
  unfold normalized.
  set (values := map signal (before ++ r :: after)).
  assert (Hne : values <> []).
  { unfold values. intro Hnil. apply map_eq_nil in Hnil.
    destruct before; discriminate. }
  assert (Hr : In (signal r) values).
  { unfold values. apply in_map, in_elt. }
  assert (Hin : forall v, In v values ->
            v = signal r \/ exists r', In r' (before ++ after) /\ v = signal r').
  { intros v Hv. unfold values in Hv. apply in_map_iff in Hv.
    destruct Hv as [r' [<- Hr']]. apply in_app_or in Hr'.
    destruct Hr' as [Hr' | [-> | Hr']].
    - right. exists r'. split; [apply in_or_app; left; exact Hr' | reflexivity].
    - left. reflexivity.
    - right. exists r'. split; [apply in_or_app; right; exact Hr' | reflexivity]. }
  destruct (minimum_least values Hne) as [_ Hleast].
  destruct (maximum_greatest values Hne) as [[top [Htop Hmax]] Hgreatest].
  rewrite Forall_forall in Hleast, Hgreatest.
  assert (Hmax_r : signal r == maximum values).
  { destruct (Hin top Htop) as [-> | [r' [Hr' ->]]]; [exact Hmax|].
    exfalso. apply (Qlt_irrefl (signal r)).
    apply Qle_lt_trans with (signal r'); [|apply Hunique, Hr'].
    rewrite Hmax. apply Hgreatest, Hr. }
  assert (Hmin_r : minimum values < maximum values).
  { destruct (before ++ after) as [|r' others] eqn:E; [congruence|].
    assert (Hr' : In r' (before ++ after)) by (rewrite E; left; reflexivity).
    rewrite <- Hmax_r.
    apply Qle_lt_trans with (signal r'); [|apply Hunique; rewrite <- E; exact Hr'].
    apply Hleast. unfold values. apply in_map.
    apply in_app_or in Hr'. apply in_or_app.
    destruct Hr' as [Hr' | Hr']; [left | right; right]; exact Hr'. }
  rewrite (normalize_compat (signal r) _ _ (maximum values) (minimum values)
             (maximum values) Hmax_r (Qeq_refl _) (Qeq_refl _)).
  apply normalize_max, Hmin_r.
Qed.

(** ** Node 6: final ranking *)

Section FinalRankingFacts.
Variable env : environment.

Lemma bind_Ok {A B : Type} (a : A) (k : A -> result B) :
  bind (Ok a) k = k a.
Proof. reflexivity. Qed.

Lemma log_stars_ok (r : repo) :
  (0 <= stars r)%Z -> log_stars env r = Ok (log_stars_signal env r).
Proof.
  intro Hstars. unfold log_stars, log_stars_signal.
  destruct (stars r + 1 <=? 0)%Z eqn:E; [|reflexivity].
  apply Z.leb_le in E. lia.
Qed.

Lemma mapM_log_stars (l : list repo) :
  stars_valid l -> mapM (log_stars env) l = Ok (map (log_stars_signal env) l).
Proof.
  induction 1 as [|r l Hr Hl IH]; [reflexivity|].
  simpl. rewrite (log_stars_ok r Hr), IH. reflexivity.
Qed.

Lemma mapM_with_log_stars {B : Type} (g : repo -> Q -> B) (l : list repo) :
  stars_valid l ->
  mapM (fun r => x <- log_stars env r ;; ret (g r x)) l
  = Ok (map (fun r => g r (log_stars_signal env r)) l).
Proof.
  induction 1 as [|r l Hr Hl IH]; [reflexivity|].
  cbn [mapM bind ret result_monad] in *.
  rewrite (log_stars_ok r Hr), IH. reflexivity.
Qed.

Lemma sorted_by_item_ok (name : string) (item : repo -> option Q)
    (l : list repo) :
  Forall (fun r => item r <> None) l ->
  sorted_by_item name item l
  = Ok (sorted_reverse (fun x => dict_get (item x) 0) l).
Proof.
  intro Hall. unfold sorted_by_item.
  assert (Hkeys : exists keys,
            mapM (fun x => subscript name (item x)) l = Ok keys).
  { induction Hall as [|r l Hr Hl [keys IH]].
    - exists []. reflexivity.
    - simpl. destruct (item r) as [v|]; [|congruence].
      simpl. rewrite IH. eexists. reflexivity. }
  destruct Hkeys as [keys ->]. reflexivity.
Qed.

(** On a non-empty list of valid candidates the stage returns the
    candidates, each with a final score that is the fused score of the
    specification, sorted by it. *)
Lemma final_ranking_returns (l : list repo) :
  l <> [] -> stars_valid l ->
  exists score : repo -> Q,
    (forall r, score r == fused_score env l r)
    /\ final_ranking env l
       = Ok (sorted_reverse final_score_of
               (map (fun r => set_final_score (score r) r) l)).
Proof.
  intros Hne Hstars.
  assert (Hmap : forall signal : repo -> Q, map signal l <> []).
  { intros signal Hnil. apply map_eq_nil in Hnil. exact (Hne Hnil). }
  unfold final_ranking. cbv zeta.
  rewrite (mapM_log_stars l Hstars), bind_Ok.
  destruct (py_min_minimum _ (Hmap similarity_signal)) as [min_sem [Hmin_sem Emin_sem]].
  destruct (py_max_maximum _ (Hmap similarity_signal)) as [max_sem [Hmax_sem Emax_sem]].
  destruct (py_min_minimum _ (Hmap reranker_signal)) as [min_ce [Hmin_ce Emin_ce]].
  destruct (py_max_maximum _ (Hmap reranker_signal)) as [max_ce [Hmax_ce Emax_ce]].
  destruct (py_min_minimum _ (Hmap activity_signal)) as [min_act [Hmin_act Emin_act]].
  destruct (py_max_maximum _ (Hmap activity_signal)) as [max_act [Hmax_act Emax_act]].
  destruct (py_min_minimum _ (Hmap (log_stars_signal env))) as [min_star [Hmin_star Emin_star]].
  destruct (py_max_maximum _ (Hmap (log_stars_signal env))) as [max_star [Hmax_star Emax_star]].
  unfold similarity_signal, reranker_signal, activity_signal in
    Hmin_sem, Hmax_sem, Hmin_ce, Hmax_ce, Hmin_act, Hmax_act.
  rewrite Hmin_sem, bind_Ok, Hmax_sem, bind_Ok, Hmin_ce, bind_Ok,
    Hmax_ce, bind_Ok, Hmin_act, bind_Ok, Hmax_act, bind_Ok,
    Hmin_star, bind_Ok, Hmax_star, bind_Ok.
  erewrite mapM_with_log_stars by exact Hstars.
  rewrite bind_Ok, sorted_by_item_ok.
  - eexists. split; [|reflexivity].
    intro r. cbv beta. unfold fused_score, normalized,
      weight_cross_encoder, weight_semantic, weight_activity, weight_stars.
    rewrite (normalize_compat _ min_ce max_ce _ _ _ (Qeq_refl _) Emin_ce Emax_ce).
    rewrite (normalize_compat _ min_sem max_sem _ _ _ (Qeq_refl _) Emin_sem Emax_sem).
    rewrite (normalize_compat _ min_act max_act _ _ _ (Qeq_refl _) Emin_act Emax_act).
    rewrite (normalize_compat _ min_star max_star _ _ _ (Qeq_refl _) Emin_star Emax_star).
    reflexivity.
  - apply Forall_forall. intros r' Hin. apply in_map_iff in Hin.
    destruct Hin as [r [<- _]]. discriminate.
Qed.

End FinalRankingFacts.

(** The candidates with the score the stage writes, in the input's
    order. *)
Lemma scored_candidates (env : environment) (l : list repo)
    (score : repo -> Q) :
  (forall r, score r == fused_score env l r) ->
  Forall2 (fun r r' => exists s, r' = set_final_score s r
                                 /\ s == fused_score env l r)
    l (map (fun r => set_final_score (score r) r) l).
Proof.
  intro Hscore. generalize (fused_score env l) Hscore. clear Hscore.
  intros fused Hscore.
  induction l as [|r l' IH]; simpl; constructor; [|exact IH].
  exists (score r). split; [reflexivity | apply Hscore].
Qed.



(** C4 (amended). Fusion score formula and weight conservation: on a
    non-empty list of valid candidates, every candidate of the list is
    ranked, none dropped and none added, with the final score 0.3 *
    normalized reranker score + 0.2 * normalized semantic similarity + 0.2 *
    normalized activity score (-100 when absent) + 0.3 * normalized
    ln(stars + 1); the four weights sum to 1; a candidate that is strictly
    above every other candidate on the four raw signals, when there is
    another candidate, receives the final score 1; and a candidate that is
    alone receives the final score 1/2. *)
Theorem final_ranking_fused_score (env : environment) (l : list repo) :
  l <> [] -> stars_valid l ->
  exists scored ranked,
    final_ranking env l = Ok ranked
    /\ Forall2 (fun r r' => exists s, r' = set_final_score s r
                                      /\ s == fused_score env l r)
         l scored
    /\ Permutation scored ranked
    /\ weight_cross_encoder + weight_semantic + weight_activity + weight_stars
       == 1
    /\ (forall before r after,
          l = before ++ r :: after ->
          before ++ after <> [] ->
          unique_maximum reranker_signal before r after ->
          unique_maximum similarity_signal before r after ->
          unique_maximum activity_signal before r after ->
          unique_maximum (log_stars_signal env) before r after ->
          exists s, In (set_final_score s r) ranked /\ s == 1)
    /\ (forall r, l = [r] ->
          exists s, ranked = [set_final_score s r] /\ s == 1 # 2).
Proof.
  intros Hne Hstars.
  destruct (final_ranking_returns env l Hne Hstars) as [score [Hscore Hrun]].
  exists (map (fun r => set_final_score (score r) r) l).
  eexists. split; [exact Hrun|].
  split; [apply scored_candidates, Hscore|].
  split; [apply sorted_reverse_perm|].
  split; [reflexivity|].
  split.
  - intros before r after -> Hothers Hce Hsem Hact Hstar.
    exists (score r). split.
    + apply Permutation_in
        with (l := map (fun r => set_final_score (score r) r) (before ++ r :: after));
        [apply sorted_reverse_perm|].
      apply (in_map (fun r => set_final_score (score r) r)), in_elt.
    + rewrite Hscore. unfold fused_score.
      rewrite (normalized_unique_maximum _ _ _ _ Hothers Hce).
      rewrite (normalized_unique_maximum _ _ _ _ Hothers Hsem).
      rewrite (normalized_unique_maximum _ _ _ _ Hothers Hact).
      rewrite (normalized_unique_maximum _ _ _ _ Hothers Hstar).
      reflexivity.
  - intros r ->. exists (score r). split; [reflexivity|].
    rewrite Hscore. unfold fused_score, normalized.
    cbn [map minimum maximum fold_right].
    rewrite !normalize_degenerate by reflexivity. reflexivity.
Qed.

(** Two candidates, one above the other on the four signals: both are
    ranked and the one above receives the final score 1. *)
Lemma final_ranking_fused_score_witness :
  [Sample.weak; Sample.strong] <> []
  /\ stars_valid [Sample.weak; Sample.strong]
  /\ exists ranked s,
       final_ranking Sample.world [Sample.weak; Sample.strong] = Ok ranked
       /\ List.length ranked = 2%nat
       /\ In (set_final_score s Sample.strong) ranked /\ s == 1.
Proof.
  assert (Hne : [Sample.weak; Sample.strong] <> []) by discriminate.
  assert (Hstars : stars_valid [Sample.weak; Sample.strong]).
  { repeat constructor; discriminate. }
  split; [exact Hne|]. split; [exact Hstars|].
  destruct (final_ranking_fused_score Sample.world _ Hne Hstars)
    as (scored & ranked & Hrun & Hscored & Hperm & _ & Hmax & _).
  destruct (Hmax [Sample.weak] Sample.strong [] eq_refl ltac:(discriminate))
    as (s & Hin & Hs); try (repeat constructor).
  exists ranked, s. split; [exact Hrun|].
  split; [|split; [exact Hin | exact Hs]].
  rewrite <- (Permutation_length Hperm), <- (Forall2_length Hscored).
  reflexivity.
Defined.

(** C4, as stated, fails on a single candidate: it is the greatest on every
    signal and no other candidate equals it, yet every signal is normalized
    to 1/2 and its final score is 1/2. *)
Lemma final_ranking_single_candidate :
  unique_maximum reranker_signal [] Sample.strong []
  /\ unique_maximum similarity_signal [] Sample.strong []
  /\ unique_maximum activity_signal [] Sample.strong []
  /\ unique_maximum (log_stars_signal Sample.world) [] Sample.strong []
  /\ exists s,
       final_ranking Sample.world [Sample.strong]
       = Ok [set_final_score s Sample.strong]
       /\ s == 1 # 2 /\ ~ s == 1.
Proof.
  repeat (split; [constructor|]).
  eexists. split; [reflexivity|].
  split; [reflexivity | discriminate].
Qed.

(** ** Node 3: re-ranking *)

(** With one score per candidate the loop gives the i-th score to the i-th
    candidate. *)
Lemma assign_scores_combine (candidates : list repo) (scores : list Q) :
  List.length scores = List.length candidates ->
  assign_scores candidates scores
  = map (fun p => set_cross_encoder_score (snd p) (fst p))
      (combine candidates scores).
Proof.
  revert scores.
  induction candidates as [|c candidates IH]; intros [|s scores] Hlen;
    try discriminate; [reflexivity|].
  simpl. f_equal. apply IH. simpl in Hlen. congruence.
Qed.

Lemma py_prefix_firstn {A : Type} (n : Z) (l : list A) :
  (0 <= n)%Z -> py_prefix n l = firstn (Z.to_nat n) l.
Proof.
  intro Hn. unfold py_prefix.
  destruct (0 <=? n)%Z eqn:E; [reflexivity|].
  apply Z.leb_gt in E. lia.
Qed.

(** C8. Reranker cap and postcondition: for a top-N that is not negative
    and a cross-encoder that returns one score per pair, the stage makes one
    prediction call, on the pairs of the first 100 candidates of the
    retrieval output in their order, whatever the retrieval top-K; the i-th
    of these candidates receives the i-th score; and the output [out] is the
    first min(N, number of scored candidates) of the scored candidates in
    descending order of the score ([out ++ rest] is that whole order). *)
Theorem cross_encoder_rerank_postcondition
    (env : environment) (cfg : AgentConfiguration) (user_query : string)
    (semantic_ranked : list repo) (h : history) :
  let candidates := firstn 100 semantic_ranked in
  let pairs := map (fun c => (user_query, combined_doc c)) candidates in
  let h1 := h ++ [Load_CrossEncoder (cross_encoder_model_name cfg)] in
  let scores := ce_predict env h1 pairs in
  (0 <= cross_encoder_top_n cfg)%Z ->
  List.length scores = List.length pairs ->
  exists out rest,
    cross_encoder_rerank env cfg user_query semantic_ranked h
    = (Ok out, h1 ++ [Predict pairs])
    /\ Permutation
         (map (fun p => set_cross_encoder_score (snd p) (fst p))
            (combine candidates scores))
         (out ++ rest)
    /\ descending reranker_signal (out ++ rest)
    /\ List.length out
       = Nat.min (Z.to_nat (cross_encoder_top_n cfg)) (List.length candidates).
Proof.
  intros candidates pairs h1 scores Htop Hlen.
  assert (Hlen' : List.length scores = List.length candidates).
  { rewrite Hlen. unfold pairs. apply length_map. }
  set (scored := map (fun p => set_cross_encoder_score (snd p) (fst p))
                   (combine candidates scores)).
  set (ranked := sorted_reverse reranker_signal scored).
  assert (Hrun : cross_encoder_rerank env cfg user_query semantic_ranked h
                 = (Ok (firstn (Z.to_nat (cross_encoder_top_n cfg)) ranked),
                    h1 ++ [Predict pairs])).
  { unfold cross_encoder_rerank, cross_encoder_rerank_func, invoke, lift.
    cbn [bind ret M_monad].
    fold candidates. fold pairs. fold h1. fold scores.
    rewrite (assign_scores_combine candidates scores Hlen'). fold scored.
    rewrite sorted_by_item_ok.
    - rewrite (py_prefix_firstn _ _ Htop). reflexivity.
    - apply Forall_forall. intros r Hin. apply in_map_iff in Hin.
      destruct Hin as [p [<- _]]. discriminate. }
  exists (firstn (Z.to_nat (cross_encoder_top_n cfg)) ranked),
         (skipn (Z.to_nat (cross_encoder_top_n cfg)) ranked).
  split; [exact Hrun|]. rewrite firstn_skipn.
  split; [apply sorted_reverse_perm|].
  split; [apply sorted_reverse_sorted|].
  rewrite length_firstn. unfold ranked. rewrite sorted_reverse_length.
  unfold scored. rewrite length_map, length_combine, Hlen', Nat.min_id.
  reflexivity.
Qed.

(** Two candidates and N = 50: both are scored and returned, the one with
    the longer document first. *)
Lemma cross_encoder_rerank_postcondition_witness :
  (0 <= cross_encoder_top_n (Sample.config 100))%Z
  /\ List.length
       (ce_predict Sample.world
          [Load_CrossEncoder (cross_encoder_model_name (Sample.config 100))]
          (map (fun c => ("query"%string, combined_doc c))
             (firstn 100 [Sample.B; Sample.A])))
     = 2%nat
  /\ exists out,
       fst (run (cross_encoder_rerank Sample.world (Sample.config 100)
                   "query" [Sample.B; Sample.A]))
       = Ok out
       /\ List.length out = 2%nat.
Proof.
  split; [discriminate|]. split; [reflexivity|].
  destruct (cross_encoder_rerank_postcondition Sample.world
              (Sample.config 100) "query" [Sample.B; Sample.A] [])
    as (out & rest & Hrun & _ & _ & Hlen);
    [discriminate | reflexivity |].
  exists out. unfold run. rewrite Hrun. split; [reflexivity | exact Hlen].
Defined.

(** ** Empty inputs *)

(** C2. Empty-input behaviour of the five stages.  Dense retrieval returns
    the empty list after loading its model and without an encoding call; the
    filter and the activity stage return the empty list without any call.
    Re-ranking returns the empty list but calls the cross-encoder's
    prediction on the empty list of pairs, and the final ranking raises
    [ValueError] from [min] of an empty list. *)
Theorem empty_input_stages
    (env : environment) (cfg : AgentConfiguration) (user_query : string)
    (h : history) :
  dense_retrieval env cfg user_query [] h
  = (Ok [], h ++ [Load_SentenceTransformer (sem_model_name cfg)])
  /\ cross_encoder_rerank env cfg user_query [] h
     = (Ok [], (h ++ [Load_CrossEncoder (cross_encoder_model_name cfg)])
               ++ [Predict []])
  /\ filter_candidates cfg [] = []
  /\ analyze_activity env [] h = (Ok [], h)
  /\ final_ranking env []
     = Raise (ValueError "min() arg is an empty sequence").
Proof.
  split; [reflexivity|]. split; [|repeat split].
  unfold cross_encoder_rerank, cross_encoder_rerank_func, invoke, lift.
  cbn [bind ret M_monad firstn map].
  destruct (ce_predict env _ []); cbn [assign_scores];
    unfold sorted_by_item, py_prefix; cbn;
    destruct (0 <=? cross_encoder_top_n cfg)%Z; try rewrite firstn_nil;
    reflexivity.
Qed.

(** ** Node 2: dense retrieval *)

Lemma set_item_ok {A : Type} (i : nat) (f : A -> A) (l : list A) :
  (i < List.length l)%nat ->
  exists l', set_item i f l = Ok l' /\ List.length l' = List.length l.
Proof.
  revert i. induction l as [|x l IH]; intros i Hi; simpl in Hi; [lia|].
  destruct i as [|i]; simpl.
  - eexists. split; reflexivity.
  - destruct (IH i) as [l' [Hset Hlen]]; [lia|].
    rewrite Hset. eexists. split; [reflexivity|]. simpl. congruence.
Qed.

Lemma annotate_similarity_ok (hits : list (nat * Q)) (repositories : list repo) :
  Forall (fun hit => (fst hit < List.length repositories)%nat) hits ->
  exists repositories',
    annotate_similarity hits repositories = Ok repositories'
    /\ List.length repositories' = List.length repositories.
Proof.
  revert repositories.
  induction hits as [|[idx score] hits IH]; intros repositories Hall; simpl.
  - eexists. split; reflexivity.
  - inversion Hall as [|? ? Hidx Hrest]; subst. simpl in Hidx.
    destruct (set_item_ok idx (set_semantic_similarity score) repositories Hidx)
      as [repositories1 [Hset Hlen1]].
    rewrite Hset.
    destruct (IH repositories1) as [repositories' [Hrun Hlen]].
    + rewrite Hlen1. exact Hrest.
    + exists repositories'. split; [exact Hrun | congruence].
Qed.

Lemma In_firstn {A : Type} (n : nat) (x : A) (l : list A) :
  In x (firstn n l) -> In x l.
Proof.
  revert l. induction n as [|n IH]; intros [|y l] Hin; simpl in Hin;
    try contradiction.
  destruct Hin as [-> | Hin]; [left; reflexivity | right; apply IH, Hin].
Qed.

(** The search returns row numbers of the index. *)
Lemma IndexFlatIP_search_in_range
    (index : list (list Q)) (query : list Q) (k : Z) :
  Forall (fun hit => (fst hit < List.length index)%nat)
    (IndexFlatIP_search index query k).
Proof.
  apply Forall_forall. intros [idx score] Hin. simpl.
  unfold IndexFlatIP_search in Hin. apply In_firstn in Hin.
  apply Permutation_in with (l' := combine (seq 0 (List.length index))
                                     (map (dot query) index)) in Hin;
    [|apply Permutation_sym, sorted_reverse_perm].
  apply in_combine_l, in_seq in Hin. lia.
Qed.


(** On a non-empty index a top-K of at least 1 passes the assertion of
    the search. *)
Lemma index_search_ok (index : list (list Q)) (query : list Q) (top_k : Z) :
  (1 <= top_k)%Z -> index <> [] ->
  index_search index query (Z.min top_k (Z.of_nat (List.length index)))
  = Ok (IndexFlatIP_search index query
          (Z.min top_k (Z.of_nat (List.length index)))).
Proof.
  intros Htop Hindex. unfold index_search.
  destruct (Z.min top_k (Z.of_nat (List.length index)) <=? 0)%Z eqn:E;
    [|reflexivity].
  apply Z.leb_le in E. destruct index; [congruence | simpl in E; lia].
Qed.

(** Whatever the top-K of at least 1, dense retrieval returns as many
    candidates as there are repositories, when the model returns one
    embedding per document. *)
Lemma dense_retrieval_length
    (env : environment) (cfg : AgentConfiguration) (user_query : string)
    (repositories : list repo) (h : history) :
  let docs := map combined_doc repositories in
  let h1 := h ++ [Load_SentenceTransformer (sem_model_name cfg)] in
  (1 <= dense_retrieval_k cfg)%Z ->
  List.length (st_encode_docs env h1 docs) = List.length docs ->
  exists ranked h',
    dense_retrieval env cfg user_query repositories h = (Ok ranked, h')
    /\ List.length ranked = List.length repositories.
Proof.
  intros docs h1 Htop Hencode.
  unfold dense_retrieval, invoke. cbn [bind ret M_monad].
  fold docs. fold h1.
  destruct docs as [|doc docs'] eqn:Edocs.
  - exists [], h1. split; [reflexivity|].
    apply map_eq_nil in Edocs. rewrite Edocs. reflexivity.
  - cbv zeta.
    assert (Hdocs : List.length (doc :: docs') = List.length repositories).
    { rewrite <- Edocs. apply length_map. }
    rewrite index_search_ok; [|exact Htop|].
    + unfold lift at 1.
      match goal with
      | |- context [annotate_similarity ?hits repositories] =>
          destruct (annotate_similarity_ok hits repositories)
            as [repositories' [Hrun Hlen]]
      end.
      * eapply Forall_impl; [|apply IndexFlatIP_search_in_range].
        intros hit Hhit. unfold normalize_embeddings in Hhit.
        rewrite length_map, Hencode in Hhit.
        rewrite <- Hdocs. exact Hhit.
      * unfold lift. rewrite Hrun. eexists. eexists. split; [reflexivity|].
        rewrite sorted_reverse_length. exact Hlen.
    + intro Hnil. apply (f_equal (@List.length _)) in Hnil.
      unfold normalize_embeddings in Hnil.
      rewrite length_map, Hencode in Hnil. discriminate.
Qed.

(** C1. Dense retrieval with top-K 1 on two repositories: the stage
    returns both repositories, although min(K, 2) is 1; the best one comes
    first with its similarity, the other one follows without a similarity
    score. *)
Theorem dense_retrieval_returns_every_repository :
  exists a b h',
    run (dense_retrieval Sample.world (Sample.config 1) "query"
           [Sample.B; Sample.A])
    = (Ok [a; b], h')
    /\ Z.min (dense_retrieval_k (Sample.config 1))
         (Z.of_nat (List.length [Sample.B; Sample.A])) = 1%Z
    /\ List.length [a; b] = 2%nat
    /\ full_name a = full_name Sample.A /\ semantic_similarity a <> None
    /\ full_name b = full_name Sample.B /\ semantic_similarity b = None.
Proof.
  eexists. eexists. eexists. split; [vm_compute; reflexivity|].
  repeat split. discriminate.
Qed.

(** * Further properties *)

(** ** The normalizer as a function *)

Lemma normalize_increasing (val val' min_val max_val : Q) :
  min_val < max_val -> val <= val' ->
  normalize val min_val max_val <= normalize val' min_val max_val.
Proof.
  intros Hlt Hval. rewrite !normalize_formula by lra.
  apply Qmult_le_compat_r; [lra|].
  apply Qlt_le_weak, Qinv_lt_0_compat. lra.
Qed.

(** X1. The normalizer is monotone in the value whenever the bounds are in
    order: on a signal, a greater raw value never gets a smaller normalized
    value. *)
Theorem normalize_monotone (val val' min_val max_val : Q) :
  min_val <= max_val -> val <= val' ->
  normalize val min_val max_val <= normalize val' min_val max_val.
Proof.
  intros Hbounds Hval.
  destruct (Qlt_le_dec min_val max_val) as [Hlt | Hge].
  - apply normalize_increasing; assumption.
  - assert (Heq : max_val == min_val) by lra.
    rewrite !(normalize_degenerate _ _ _ Heq). apply Qle_refl.
Qed.

Lemma normalize_monotone_witness :
  2 <= 6 /\ 3 <= 5 /\ normalize 3 2 6 <= normalize 5 2 6.
Proof.
  split; [discriminate|]. split; [discriminate|].
  apply normalize_monotone; discriminate.
Defined.

(** ** Final scores *)

Lemma signal_between (signal : repo -> Q) (l : list repo) (r : repo) :
  In r l ->
  minimum (map signal l) <= signal r <= maximum (map signal l).
Proof.
  intro Hin.
  assert (Hne : map signal l <> []).
  { intro Hnil. apply map_eq_nil in Hnil. subst l. destruct Hin. }
  destruct (minimum_least _ Hne) as [_ Hleast].
  destruct (maximum_greatest _ Hne) as [_ Hgreatest].
  rewrite Forall_forall in Hleast, Hgreatest.
  split; [apply Hleast | apply Hgreatest]; apply in_map, Hin.
Qed.

Lemma normalized_range (signal : repo -> Q) (l : list repo) (r : repo) :
  In r l -> 0 <= normalized signal l r <= 1.
Proof.
  intro Hin. destruct (signal_between signal l r Hin) as [Hlo Hhi].
  unfold normalized.
  destruct (Qlt_le_dec (minimum (map signal l)) (maximum (map signal l)))
    as [Hlt | Hge].
  - apply normalize_range; [exact Hlt | split; assumption].
  - rewrite normalize_degenerate by lra. split; discriminate.
Qed.

Lemma normalized_monotone (signal : repo -> Q) (l : list repo) (r r' : repo) :
  In r l -> signal r' <= signal r ->
  normalized signal l r' <= normalized signal l r.
Proof.
  intros Hin Hle. destruct (signal_between signal l r Hin) as [Hlo Hhi].
  unfold normalized.
  destruct (Qlt_le_dec (minimum (map signal l)) (maximum (map signal l)))
    as [Hlt | Hge].
  - apply normalize_increasing; assumption.
  - rewrite !normalize_degenerate by lra. apply Qle_refl.
Qed.

Lemma fused_score_range (env : environment) (l : list repo) (r : repo) :
  In r l -> 0 <= fused_score env l r <= 1.
Proof.
  intro Hin. unfold fused_score.
  pose proof (normalized_range reranker_signal l r Hin).
  pose proof (normalized_range similarity_signal l r Hin).
  pose proof (normalized_range activity_signal l r Hin).
  pose proof (normalized_range (log_stars_signal env) l r Hin).
  lra.
Qed.

(** The ranked candidates are the input candidates with their score. *)
Lemma ranked_candidates (score : repo -> Q) (l : list repo) (r' : repo) :
  In r' (sorted_reverse final_score_of
           (map (fun r => set_final_score (score r) r) l))
  <-> exists r, In r l /\ r' = set_final_score (score r) r.
Proof.
  split.
  - intro Hin.
    apply Permutation_in with (l' := map (fun r => set_final_score (score r) r) l)
      in Hin; [|apply Permutation_sym, sorted_reverse_perm].
    apply in_map_iff in Hin. destruct Hin as [r [<- Hin]].
    exists r. split; [exact Hin | reflexivity].
  - intros [r [Hin ->]].
    apply Permutation_in with (l := map (fun r => set_final_score (score r) r) l);
      [apply sorted_reverse_perm|].
    apply (in_map (fun r => set_final_score (score r) r)), Hin.
Qed.

(** X3. Final scores are in [0,1]: on a non-empty list of valid candidates
    every ranked candidate has a final score between 0 and 1. *)
Theorem final_ranking_scores_in_unit_interval
    (env : environment) (l : list repo) :
  l <> [] -> stars_valid l ->
  exists ranked,
    final_ranking env l = Ok ranked
    /\ Forall (fun r' => exists s, final_score r' = Some s /\ 0 <= s <= 1)
         ranked.
Proof.
  intros Hne Hstars.
  destruct (final_ranking_returns env l Hne Hstars) as [score [Hscore Hrun]].
  eexists. split; [exact Hrun|].
  apply Forall_forall. intros r' Hin.
  apply ranked_candidates in Hin. destruct Hin as [r [Hin ->]].
  exists (score r). split; [reflexivity|].
  rewrite Hscore. apply fused_score_range, Hin.
Qed.

Lemma final_ranking_scores_in_unit_interval_witness :
  [Sample.weak; Sample.strong] <> []
  /\ stars_valid [Sample.weak; Sample.strong]
  /\ exists ranked,
       final_ranking Sample.world [Sample.weak; Sample.strong] = Ok ranked
       /\ Forall (fun r' => exists s, final_score r' = Some s /\ 0 <= s <= 1)
            ranked.
Proof.
  assert (Hne : [Sample.weak; Sample.strong] <> []) by discriminate.
  assert (Hstars : stars_valid [Sample.weak; Sample.strong]).
  { repeat constructor; discriminate. }
  split; [exact Hne|]. split; [exact Hstars|].
  exact (final_ranking_scores_in_unit_interval Sample.world _ Hne Hstars).
Defined.

(** X4. The fusion respects dominance: a candidate that is at least as
    high as another one on each of the four raw signals gets a final score
    that is at least the other's. *)
Theorem final_ranking_respects_dominance
    (env : environment) (l : list repo) (r r' : repo) :
  stars_valid l -> In r l -> In r' l ->
  reranker_signal r' <= reranker_signal r ->
  similarity_signal r' <= similarity_signal r ->
  activity_signal r' <= activity_signal r ->
  log_stars_signal env r' <= log_stars_signal env r ->
  exists ranked s s',
    final_ranking env l = Ok ranked
    /\ In (set_final_score s r) ranked
    /\ In (set_final_score s' r') ranked
    /\ s' <= s.
Proof.
  intros Hstars Hr Hr' Hce Hsem Hact Hstar.
  assert (Hne : l <> []) by (intros ->; destruct Hr).
  destruct (final_ranking_returns env l Hne Hstars) as [score [Hscore Hrun]].
  exists (sorted_reverse final_score_of
            (map (fun r => set_final_score (score r) r) l)),
         (score r), (score r').
  split; [exact Hrun|].
  split; [apply ranked_candidates; exists r; split; [exact Hr | reflexivity]|].
  split; [apply ranked_candidates; exists r'; split; [exact Hr' | reflexivity]|].
  rewrite !Hscore. unfold fused_score.
  pose proof (normalized_monotone reranker_signal l r r' Hr Hce).
  pose proof (normalized_monotone similarity_signal l r r' Hr Hsem).
  pose proof (normalized_monotone activity_signal l r r' Hr Hact).
  pose proof (normalized_monotone (log_stars_signal env) l r r' Hr Hstar).
  lra.
Qed.

Lemma final_ranking_respects_dominance_witness :
  stars_valid [Sample.weak; Sample.strong]
  /\ exists ranked s s',
       final_ranking Sample.world [Sample.weak; Sample.strong] = Ok ranked
       /\ In (set_final_score s Sample.strong) ranked
       /\ In (set_final_score s' Sample.weak) ranked
       /\ s' <= s.
Proof.
  assert (Hstars : stars_valid [Sample.weak; Sample.strong]).
  { repeat constructor; discriminate. }
  split; [exact Hstars|].
  apply (final_ranking_respects_dominance Sample.world
           [Sample.weak; Sample.strong] Sample.strong Sample.weak Hstars);
    try discriminate.
  - right. left. reflexivity.
  - left. reflexivity.
Defined.

Lemma sorted_reverse_ties {A : Type} (key : A -> Q) (l : list A) :
  (forall x y, In x l -> In y l -> key x == key y) ->
  sorted_reverse key l = l.
Proof.
  induction l as [|x l IH]; intro Hties; [reflexivity|].
  simpl. rewrite IH.
  - destruct l as [|y l]; [reflexivity|]. simpl.
    assert (E : Qle_bool (key y) (key x) = true).
    { apply Qle_bool_iff.
      rewrite (Hties y x); [apply Qle_refl | right; left | left]; reflexivity. }
    rewrite E. reflexivity.
  - intros a b Ha Hb. apply Hties; right; assumption.
Qed.

Lemma normalized_tied (signal : repo -> Q) (l : list repo) (r : repo) :
  l <> [] ->
  (forall a b, In a l -> In b l -> signal a == signal b) ->
  normalized signal l r = 1 # 2.
Proof.
  intros Hne Hties. unfold normalized. apply normalize_degenerate.
  assert (Hmap : map signal l <> []).
  { intro Hnil. apply map_eq_nil in Hnil. exact (Hne Hnil). }
  destruct (minimum_least _ Hmap) as [[lo [Hlo Elo]] _].
  destruct (maximum_greatest _ Hmap) as [[hi [Hhi Ehi]] _].
  apply in_map_iff in Hlo, Hhi.
  destruct Hlo as [a [<- Ha]]. destruct Hhi as [b [<- Hb]].
  rewrite <- Elo, <- Ehi. apply Hties; assumption.
Qed.

(** X5. When all the candidates tie on each of the four raw signals, the
    final ranking returns them in the order they came in, each with the
    final score 1/2. *)
Theorem final_ranking_all_tied (env : environment) (l : list repo) :
  l <> [] -> stars_valid l ->
  (forall a b, In a l -> In b l ->
     reranker_signal a == reranker_signal b
     /\ similarity_signal a == similarity_signal b
     /\ activity_signal a == activity_signal b
     /\ log_stars_signal env a == log_stars_signal env b) ->
  exists ranked,
    final_ranking env l = Ok ranked
    /\ Forall2 (fun r r' => exists s, r' = set_final_score s r /\ s == 1 # 2)
         l ranked.
Proof.
  intros Hne Hstars Hties.
  destruct (final_ranking_returns env l Hne Hstars) as [score [Hscore Hrun]].
  assert (Hhalf : forall r, score r == 1 # 2).
  { intro r. rewrite Hscore. unfold fused_score.
    rewrite !normalized_tied; try exact Hne;
      try (intros a b Ha Hb; apply (Hties a b Ha Hb)).
    reflexivity. }
  eexists. split; [exact Hrun|].
  rewrite sorted_reverse_ties.
  - clear - Hhalf. induction l as [|r l IH]; simpl; constructor.
    + exists (score r). split; [reflexivity | apply Hhalf].
    + exact IH.
  - intros x y Hx Hy. apply in_map_iff in Hx, Hy.
    destruct Hx as [a [<- _]]. destruct Hy as [b [<- _]].
    unfold final_score_of. simpl. rewrite !Hhalf. reflexivity.
Qed.

Lemma final_ranking_all_tied_witness :
  [Sample.strong; Scenario.twin] <> []
  /\ stars_valid [Sample.strong; Scenario.twin]
  /\ exists ranked,
       final_ranking Sample.world [Sample.strong; Scenario.twin] = Ok ranked
       /\ Forall2 (fun r r' => exists s, r' = set_final_score s r /\ s == 1 # 2)
            [Sample.strong; Scenario.twin] ranked.
Proof.
  assert (Hne : [Sample.strong; Scenario.twin] <> []) by discriminate.
  assert (Hstars : stars_valid [Sample.strong; Scenario.twin]).
  { repeat constructor; discriminate. }
  split; [exact Hne|]. split; [exact Hstars|].
  apply (final_ranking_all_tied Sample.world _ Hne Hstars).
  intros a b [<- | [<- | []]] [<- | [<- | []]]; repeat split; reflexivity.
Defined.

(** ** The quality filter, again *)

Lemma filter_idempotent {A : Type} (f : A -> bool) (l : list A) :
  filter f (filter f l) = filter f l.
Proof.
  induction l as [|x l IH]; [reflexivity|].
  simpl. destruct (f x) eqn:E; simpl; [rewrite E, IH|]; congruence.
Qed.

(** X6. The quality filter is idempotent: filtering its own output changes
    nothing, also in the fallback case. *)
Theorem filter_candidates_idempotent
    (cfg : AgentConfiguration) (l : list repo) :
  filter_candidates cfg (filter_candidates cfg l) = filter_candidates cfg l.
Proof.
  destruct (filter_candidates_cases cfg l) as [[Hnil Heq] | [Hkept Heq]].
  - rewrite Heq. exact Heq.
  - rewrite Heq.
    destruct (filter_candidates_cases cfg
                (filter (fun r => negb (low_signal cfg r)) l))
      as [[Hnil' Heq'] | [_ Heq']].
    + rewrite filter_idempotent in Hnil'. contradiction.
    + rewrite Heq'. apply filter_idempotent.
Qed.

(** X7. The quality filter never drops a candidate that reaches one of the
    thresholds: a candidate of the input with at least [min_stars] stars, or
    with a reranker score of at least the threshold, is in the output. *)
Theorem filter_candidates_keeps_strong
    (cfg : AgentConfiguration) (l : list repo) (r : repo) :
  In r l ->
  (min_stars cfg <= stars r)%Z
  \/ cross_encoder_threshold cfg <= reranker_signal r ->
  In r (filter_candidates cfg l).
Proof.
  intros Hin Hstrong.
  destruct (filter_candidates_cases cfg l) as [[_ Heq] | [_ Heq]];
    rewrite Heq; [exact Hin|].
  apply filter_In. split; [exact Hin|].
  apply negb_true_iff. destruct (low_signal cfg r) eqn:E; [|reflexivity].
  apply low_signal_iff in E. destruct E as [Hstars Hscore].
  destruct Hstrong as [Hstrong | Hstrong]; [lia|].
  exfalso. apply (Qlt_not_le _ _ Hscore Hstrong).
Qed.

Lemma filter_candidates_keeps_strong_witness :
  In Sample.B_reranked [Sample.A_reranked; Sample.B_reranked]
  /\ cross_encoder_threshold (Sample.config 100)
     <= reranker_signal Sample.B_reranked
  /\ In Sample.B_reranked
       (filter_candidates (Sample.config 100)
          [Sample.A_reranked; Sample.B_reranked]).
Proof.
  assert (Hin : In Sample.B_reranked [Sample.A_reranked; Sample.B_reranked])
    by (right; left; reflexivity).
  assert (Hscore : cross_encoder_threshold (Sample.config 100)
                   <= reranker_signal Sample.B_reranked) by discriminate.
  split; [exact Hin|]. split; [exact Hscore|].
  apply filter_candidates_keeps_strong; [exact Hin | right; exact Hscore].
Defined.

(** ** Re-ranking, again *)

(** What the stage returns when the cross-encoder gives one score per
    pair, for any top-N. *)
Lemma cross_encoder_rerank_returns
    (env : environment) (cfg : AgentConfiguration) (user_query : string)
    (semantic_ranked : list repo) (h : history) :
  let candidates := firstn 100 semantic_ranked in
  let pairs := map (fun c => (user_query, combined_doc c)) candidates in
  let h1 := h ++ [Load_CrossEncoder (cross_encoder_model_name cfg)] in
  let scores := ce_predict env h1 pairs in
  let scored := map (fun p => set_cross_encoder_score (snd p) (fst p))
                  (combine candidates scores) in
  List.length scores = List.length pairs ->
  cross_encoder_rerank env cfg user_query semantic_ranked h
  = (Ok (py_prefix (cross_encoder_top_n cfg)
           (sorted_reverse reranker_signal scored)),
     h1 ++ [Predict pairs]).
Proof.
  intros candidates pairs h1 scores scored Hlen.
  assert (Hlen' : List.length scores = List.length candidates).
  { rewrite Hlen. unfold pairs. apply length_map. }
  unfold cross_encoder_rerank, cross_encoder_rerank_func, invoke, lift.
  cbn [bind ret M_monad].
  fold candidates. fold pairs. fold h1. fold scores.
  rewrite (assign_scores_combine candidates scores Hlen'). fold scored.
  rewrite sorted_by_item_ok; [reflexivity|].
  apply Forall_forall. intros r Hin. apply in_map_iff in Hin.
  destruct Hin as [p [<- _]]. discriminate.
Qed.

Lemma scored_frame (candidates : list repo) (scores : list Q) :
  List.length scores = List.length candidates ->
  Forall2 same_but_reranker candidates
    (map (fun p => set_cross_encoder_score (snd p) (fst p))
       (combine candidates scores)).
Proof.
  revert scores.
  induction candidates as [|c candidates IH]; intros [|s scores] Hlen;
    try discriminate; simpl; constructor.
  - unfold same_but_reranker. simpl. repeat split; reflexivity.
  - apply IH. simpl in Hlen. congruence.
Qed.

(** X8. Re-ranking is stable and touches one key: with a top-N that is
    not negative and one score per pair, the stage makes its one prediction
    call; the scored candidates are the first 100 retrieval candidates with
    the predicted scores in order, equal to them on every key but
    [cross_encoder_score]; the output [out] is the first min(N, number of
    scored candidates) of [out ++ rest], which holds the scored candidates
    in descending order of the score, candidates of equal score in the
    order of the retrieval output. *)
Theorem cross_encoder_rerank_stable
    (env : environment) (cfg : AgentConfiguration) (user_query : string)
    (semantic_ranked : list repo) (h : history) :
  let candidates := firstn 100 semantic_ranked in
  let pairs := map (fun c => (user_query, combined_doc c)) candidates in
  let h1 := h ++ [Load_CrossEncoder (cross_encoder_model_name cfg)] in
  let scores := ce_predict env h1 pairs in
  let scored := map (fun p => set_cross_encoder_score (snd p) (fst p))
                  (combine candidates scores) in
  (0 <= cross_encoder_top_n cfg)%Z ->
  List.length scores = List.length pairs ->
  exists out rest,
    cross_encoder_rerank env cfg user_query semantic_ranked h
    = (Ok out, h1 ++ [Predict pairs])
    /\ Forall2 same_but_reranker candidates scored
    /\ Permutation scored (out ++ rest)
    /\ descending reranker_signal (out ++ rest)
    /\ (forall k, with_key reranker_signal k (out ++ rest)
                  = with_key reranker_signal k scored)
    /\ List.length out
       = Nat.min (Z.to_nat (cross_encoder_top_n cfg)) (List.length candidates).
Proof.
  intros candidates pairs h1 scores scored Htop Hlen.
  pose proof (cross_encoder_rerank_returns env cfg user_query semantic_ranked h
                Hlen) as Hrun.
  cbv zeta in Hrun. fold candidates pairs h1 scores scored in Hrun.
  rewrite (py_prefix_firstn _ _ Htop) in Hrun.
  assert (Hlen' : List.length scores = List.length candidates).
  { rewrite Hlen. unfold pairs. apply length_map. }
  exists (firstn (Z.to_nat (cross_encoder_top_n cfg))
            (sorted_reverse reranker_signal scored)),
         (skipn (Z.to_nat (cross_encoder_top_n cfg))
            (sorted_reverse reranker_signal scored)).
  split; [exact Hrun|]. rewrite firstn_skipn.
  split; [apply scored_frame, Hlen'|].
  split; [apply sorted_reverse_perm|].
  split; [apply sorted_reverse_sorted|].
  split; [intro k; apply sorted_reverse_stable|].
  rewrite length_firstn, sorted_reverse_length. unfold scored.
  rewrite length_map, length_combine, Hlen', Nat.min_id. reflexivity.
Qed.

(** Three candidates and N = 2: the two with the longer documents have the
    same score and are returned in the order of the retrieval output. *)
Lemma cross_encoder_rerank_stable_witness :
  (0 <= cross_encoder_top_n (mk_config 100 2 50 (55 # 10) "m" "c"))%Z
  /\ exists out,
       fst (run (cross_encoder_rerank Sample.world
                   (mk_config 100 2 50 (55 # 10) "m" "c") "query"
                   [Sample.B; Scenario.twin; Sample.A]))
       = Ok out
       /\ map full_name out = ["o/twin"; "o/a"]%string.
Proof.
  split; [discriminate|].
  destruct (cross_encoder_rerank_stable Sample.world
              (mk_config 100 2 50 (55 # 10) "m" "c")
              "query" [Sample.B; Scenario.twin; Sample.A] [])
    as (out & rest & Hrun & _);
    [discriminate | reflexivity |].
  exists out. unfold run. rewrite Hrun. split; [reflexivity|].
  vm_compute in Hrun. injection Hrun as <-. reflexivity.
Defined.

(** X9. A negative top-N drops from the end: with N < 0 and one score per
    pair, the stage returns the scored candidates in descending order
    without the last |N| of them (none when there are at most |N|). *)
Theorem cross_encoder_rerank_negative_top_n
    (env : environment) (cfg : AgentConfiguration) (user_query : string)
    (semantic_ranked : list repo) (h : history) :
  let candidates := firstn 100 semantic_ranked in
  let pairs := map (fun c => (user_query, combined_doc c)) candidates in
  let h1 := h ++ [Load_CrossEncoder (cross_encoder_model_name cfg)] in
  let scores := ce_predict env h1 pairs in
  (cross_encoder_top_n cfg < 0)%Z ->
  List.length scores = List.length pairs ->
  exists out rest h',
    cross_encoder_rerank env cfg user_query semantic_ranked h = (Ok out, h')
    /\ Permutation
         (map (fun p => set_cross_encoder_score (snd p) (fst p))
            (combine candidates scores))
         (out ++ rest)
    /\ descending reranker_signal (out ++ rest)
    /\ List.length rest
       = Nat.min (Z.to_nat (- cross_encoder_top_n cfg)) (List.length candidates).
Proof.
  intros candidates pairs h1 scores Htop Hlen.
  pose proof (cross_encoder_rerank_returns env cfg user_query semantic_ranked h
                Hlen) as Hrun.
  cbv zeta in Hrun. fold candidates pairs h1 scores in Hrun.
  set (ranked := sorted_reverse reranker_signal
                   (map (fun p => set_cross_encoder_score (snd p) (fst p))
                      (combine candidates scores))) in *.
  assert (Hranked : List.length ranked = List.length candidates).
  { unfold ranked. rewrite sorted_reverse_length, length_map, length_combine.
    rewrite Hlen. unfold pairs. rewrite length_map. apply Nat.min_id. }
  unfold py_prefix in Hrun.
  destruct (0 <=? cross_encoder_top_n cfg)%Z eqn:E;
    [apply Z.leb_le in E; lia|].
  set (n := (List.length ranked - Z.to_nat (- cross_encoder_top_n cfg))%nat) in *.
  exists (firstn n ranked), (skipn n ranked). eexists.
  split; [exact Hrun|]. rewrite firstn_skipn.
  split; [apply sorted_reverse_perm|].
  split; [apply sorted_reverse_sorted|].
  rewrite length_skipn. unfold n. lia.
Qed.

Lemma cross_encoder_rerank_negative_top_n_witness :
  (cross_encoder_top_n (mk_config 100 (-1) 50 (55 # 10) "m" "c") < 0)%Z
  /\ exists out,
       fst (run (cross_encoder_rerank Sample.world
                   (mk_config 100 (-1) 50 (55 # 10) "m" "c")
                   "query" [Sample.B; Sample.A]))
       = Ok out
       /\ List.length out = 1%nat.
Proof.
  split; [reflexivity|].
  destruct (cross_encoder_rerank_negative_top_n Sample.world
              (mk_config 100 (-1) 50 (55 # 10) "m" "c")
              "query" [Sample.B; Sample.A] [])
    as (out & rest & h' & Hrun & Hperm & _ & Hrest);
    [reflexivity | reflexivity |].
  exists out. unfold run. rewrite Hrun. split; [reflexivity|].
  apply Permutation_length in Hperm. rewrite length_app, Hrest in Hperm.
  simpl in Hperm. lia.
Defined.

Lemma sorted_by_item_missing (name : string) (item : repo -> option Q)
    (l : list repo) :
  Exists (fun r => item r = None) l ->
  sorted_by_item name item l = Raise (KeyError name).
Proof.
  intro Hmissing. unfold sorted_by_item.
  assert (Hkeys : mapM (fun x => subscript name (item x)) l
                  = Raise (KeyError name)).
  { induction l as [|r l IH]; [inversion Hmissing|].
    cbn [mapM bind ret result_monad].
    destruct (item r) as [v|] eqn:E; [|reflexivity].
    cbn [subscript]. rewrite IH; [reflexivity|].
    inversion Hmissing as [? ? Hr | ? ? Hl]; subst; [congruence | exact Hl]. }
  rewrite Hkeys. reflexivity.
Qed.

Lemma assign_scores_short (candidates : list repo) (scores : list Q) :
  Forall (fun c => cross_encoder_score c = None) candidates ->
  (List.length scores < List.length candidates)%nat ->
  Exists (fun c => cross_encoder_score c = None)
    (assign_scores candidates scores).
Proof.
  intro Hnone. revert scores.
  induction Hnone as [|c candidates Hc Hrest IH]; intros scores Hlen;
    simpl in Hlen; [lia|].
  destruct scores as [|s scores]; simpl.
  - apply Exists_cons_hd. exact Hc.
  - apply Exists_cons_tl, IH. simpl in Hlen. lia.
Qed.

(** X10. A cross-encoder that returns fewer scores than pairs makes the
    stage raise: when the retrieval candidates carry no reranker score yet,
    the candidates left without a score make the sort by
    [cross_encoder_score] raise [KeyError], after the prediction call. *)
Theorem cross_encoder_rerank_missing_score
    (env : environment) (cfg : AgentConfiguration) (user_query : string)
    (semantic_ranked : list repo) (h : history) :
  let candidates := firstn 100 semantic_ranked in
  let pairs := map (fun c => (user_query, combined_doc c)) candidates in
  let h1 := h ++ [Load_CrossEncoder (cross_encoder_model_name cfg)] in
  let scores := ce_predict env h1 pairs in
  Forall (fun c => cross_encoder_score c = None) semantic_ranked ->
  (List.length scores < List.length pairs)%nat ->
  cross_encoder_rerank env cfg user_query semantic_ranked h
  = (Raise (KeyError "cross_encoder_score"), h1 ++ [Predict pairs]).
Proof.
  intros candidates pairs h1 scores Hnone Hlen.
  assert (Hnone' : Forall (fun c => cross_encoder_score c = None) candidates).
  { rewrite Forall_forall in *. intros c Hc. apply Hnone.
    apply (In_firstn 100), Hc. }
  unfold cross_encoder_rerank, cross_encoder_rerank_func, invoke, lift.
  cbn [bind ret M_monad].
  fold candidates. fold pairs. fold h1. fold scores.
  rewrite sorted_by_item_missing; [reflexivity|].
  apply assign_scores_short; [exact Hnone'|].
  unfold pairs in Hlen. rewrite length_map in Hlen. exact Hlen.
Qed.

Lemma cross_encoder_rerank_missing_score_witness :
  Forall (fun c => cross_encoder_score c = None) [Sample.B; Sample.A]
  /\ fst (run (cross_encoder_rerank Scenario.short_scores (Sample.config 100)
                 "query" [Sample.B; Sample.A]))
     = Raise (KeyError "cross_encoder_score").
Proof.
  assert (Hnone : Forall (fun c => cross_encoder_score c = None)
                    [Sample.B; Sample.A]) by (repeat constructor).
  split; [exact Hnone|].
  unfold run.
  rewrite (cross_encoder_rerank_missing_score Scenario.short_scores
             (Sample.config 100) "query" [Sample.B; Sample.A] [] Hnone);
    [reflexivity|].
  simpl. lia.
Defined.

(** ** Activity analysis, again *)

Lemma api_calls_app (h h' : history) :
  api_calls (h ++ h') = api_calls h ++ api_calls h'.
Proof.
  unfold api_calls. apply filter_app.
Qed.

(** X11. The activity stage sends two requests per candidate: it extends
    the history, and the requests it adds are, for each candidate in the
    order of the list, the pull-request lookup then the commit lookup of
    that candidate; the only other calls it makes read the clock. *)
Theorem analyze_activity_requests
    (env : environment) (l : list repo) (h : history) :
  exists out added,
    analyze_activity env l h = (Ok out, h ++ added)
    /\ api_calls added = flat_map lookups_of l.
Proof.
  revert h. induction l as [|r l IH]; intro h.
  - exists [], []. split; [simpl; rewrite app_nil_r|]; reflexivity.
  - simpl analyze_activity. cbn [bind M_monad].
    rewrite (analyze_repository_activity_returns env r h). cbv zeta.
    set (h2 := (h ++ [Get_pulls (full_name r)]) ++ [Get_commits (full_name r)]).
    set (found := if (commits_status_code _ =? 200)%Z then _ else None).
    assert (Hstep : exists clock,
              match found with Some _ => h2 ++ [Utcnow] | None => h2 end
              = h ++ lookups_of r ++ clock
              /\ api_calls clock = []).
    { unfold h2, lookups_of. destruct found.
      - exists [Utcnow]. rewrite <- !app_assoc. split; reflexivity.
      - exists []. rewrite <- !app_assoc. split; reflexivity. }
    destruct Hstep as [clock [-> Hclock]].
    destruct (IH (h ++ lookups_of r ++ clock)) as [out [added [Hrun Hadded]]].
    rewrite Hrun. cbn [ret].
    eexists. exists (lookups_of r ++ clock ++ added).
    split.
    + rewrite <- !app_assoc. reflexivity.
    + rewrite !api_calls_app, Hclock, Hadded. reflexivity.
Qed.

(** X12. After the activity stage the three keys it writes are present on
    every candidate and agree with each other: the stored activity score is
    the formula applied to the stored pull-request count, the candidate's
    open-issue count and the stored commit age, and the stored pull-request
    count is not negative. *)
Theorem analyze_activity_consistent
    (env : environment) (l : list repo) (h : history) :
  exists out h',
    analyze_activity env l h = (Ok out, h')
    /\ Forall (fun r' =>
         exists prs days score,
           pr_count r' = Some prs /\ latest_commit_days r' = Some days
           /\ activity_score r' = Some score
           /\ score == activity_formula prs (open_issues_count r') days
           /\ (0 <= prs)%Z)
       out.
Proof.
  revert h. induction l as [|r l IH]; intro h.
  - exists [], h. split; [reflexivity | constructor].
  - simpl analyze_activity. cbn [bind M_monad].
    rewrite (analyze_repository_activity_returns env r h). cbv zeta.
    match goal with
    | |- context [analyze_activity env l ?h1] =>
        destruct (IH h1) as [out [h' [Hrun Hall]]]; rewrite Hrun
    end.
    eexists. eexists. split; [reflexivity|].
    constructor; [|exact Hall].
    eexists. eexists. eexists.
    cbn [update_activity pr_count latest_commit_days activity_score
         open_issues_count data_pr_count data_latest_commit_days
         data_activity_score].
    split; [reflexivity|]. split; [reflexivity|]. split; [reflexivity|].
    split.
    + unfold activity_formula. rewrite inject_Z_plus, inject_Z_mult.
      reflexivity.
    + destruct (pulls_status_code _ =? 200)%Z; lia.
Qed.

(** ** Dense retrieval, again *)

Lemma set_item_related {A : Type} (R : A -> A -> Prop)
    (i : nat) (f : A -> A) (l l' : list A) :
  (forall x, R x x) -> (forall x, R x (f x)) ->
  set_item i f l = Ok l' -> Forall2 R l l'.
Proof.
  intros Hrefl Hf. revert i l'.
  induction l as [|x l IH]; intros i l' Hset;
    [destruct i; discriminate|].
  destruct i as [|i]; simpl in Hset.
  - injection Hset as <-. constructor; [apply Hf|].
    clear - Hrefl. induction l; constructor; [apply Hrefl | assumption].
  - destruct (set_item i f l) as [l''|e] eqn:E; [|discriminate].
    injection Hset as <-. constructor; [apply Hrefl | apply (IH i), E].
Qed.

Lemma Forall2_transitive {A : Type} (R : A -> A -> Prop) (l1 l2 l3 : list A) :
  (forall x y z, R x y -> R y z -> R x z) ->
  Forall2 R l1 l2 -> Forall2 R l2 l3 -> Forall2 R l1 l3.
Proof.
  intros Htrans H12. revert l3.
  induction H12 as [|x y l1 l2 Hxy H12 IH]; intros l3 H23;
    inversion H23; subst; constructor.
  - eapply Htrans; eassumption.
  - apply IH. assumption.
Qed.

Lemma same_but_similarity_refl (r : repo) : same_but_similarity r r.
Proof.
  unfold same_but_similarity. repeat split; reflexivity.
Qed.

Lemma same_but_similarity_trans (r1 r2 r3 : repo) :
  same_but_similarity r1 r2 -> same_but_similarity r2 r3 ->
  same_but_similarity r1 r3.
Proof.
  unfold same_but_similarity.
  intros (H1 & H2 & H3 & H4 & H5 & H6 & H7 & H8 & H9 & H10 & H11)
         (G1 & G2 & G3 & G4 & G5 & G6 & G7 & G8 & G9 & G10 & G11).
  repeat split; congruence.
Qed.

(** The loop of lines 208-209 writes one key. *)
Lemma annotate_similarity_frame
    (hits : list (nat * Q)) (repositories repositories' : list repo) :
  annotate_similarity hits repositories = Ok repositories' ->
  Forall2 same_but_similarity repositories repositories'.
Proof.
  revert repositories.
  induction hits as [|[idx score] hits IH]; intros repositories Hrun;
    simpl in Hrun.
  - injection Hrun as <-.
    induction repositories; constructor;
      [apply same_but_similarity_refl | assumption].
  - destruct (set_item idx (set_semantic_similarity score) repositories)
      as [repositories1|e] eqn:E; [|discriminate].
    apply Forall2_transitive with repositories1.
    + exact same_but_similarity_trans.
    + apply (set_item_related _ _ _ _ _ same_but_similarity_refl) in E;
        [exact E|].
      intro r. unfold same_but_similarity. simpl. repeat split; reflexivity.
    + apply IH. exact Hrun.
Qed.

(** What the stage returns on repositories, for a top-K of at least 1,
    when the model gives one embedding per document. *)
Lemma dense_retrieval_returns
    (env : environment) (cfg : AgentConfiguration) (user_query : string)
    (repositories : list repo) (h : history) :
  let docs := map combined_doc repositories in
  let h1 := h ++ [Load_SentenceTransformer (sem_model_name cfg)] in
  let index := normalize_embeddings env (st_encode_docs env h1 docs) in
  let h2 := h1 ++ [Encode_docs docs] in
  let query :=
    hd [] (normalize_embeddings env [st_encode_query env h2 user_query]) in
  let hits := IndexFlatIP_search index query
                (Z.min (dense_retrieval_k cfg) (Z.of_nat (List.length index))) in
  (1 <= dense_retrieval_k cfg)%Z ->
  repositories <> [] ->
  List.length (st_encode_docs env h1 docs) = List.length docs ->
  exists annotated,
    annotate_similarity hits repositories = Ok annotated
    /\ dense_retrieval env cfg user_query repositories h
       = (Ok (sorted_reverse similarity_signal annotated),
          h2 ++ [Encode_query user_query]).
Proof.
  intros docs h1 index h2 query hits Htop Hne Hencode.
  assert (Hindex : List.length index = List.length repositories).
  { unfold index, normalize_embeddings. rewrite length_map, Hencode.
    apply length_map. }
  destruct (annotate_similarity_ok hits repositories)
    as [annotated [Hrun Hlen]].
  { eapply Forall_impl; [|apply IndexFlatIP_search_in_range].
    intros hit Hhit. rewrite <- Hindex. exact Hhit. }
  exists annotated. split; [exact Hrun|].
  unfold dense_retrieval, invoke. cbn [bind ret M_monad].
  fold docs. fold h1.
  destruct docs as [|doc docs'] eqn:Edocs.
  - apply map_eq_nil in Edocs. contradiction.
  - cbv zeta. fold index. fold h2. fold query.
    rewrite index_search_ok; [|exact Htop|].
    + unfold lift. fold hits. rewrite Hrun. reflexivity.
    + intro Hnil. rewrite Hnil in Hindex.
      destruct repositories; [congruence | discriminate].
Qed.



(** ** The graph *)

Lemma drawn_from_refl (l : list repo) : drawn_from l l.
Proof.
  apply Forall_forall. intros r Hin. exists r.
  split; [exact Hin|]. unfold same_repository. repeat split; reflexivity.
Qed.

Lemma drawn_from_trans (l1 l2 l3 : list repo) :
  drawn_from l1 l2 -> drawn_from l2 l3 -> drawn_from l1 l3.
Proof.
  unfold drawn_from. rewrite !Forall_forall. intros H12 H23 r3 Hin3.
  destruct (H23 r3 Hin3) as [r2 [Hin2 H2]].
  destruct (H12 r2 Hin2) as [r1 [Hin1 H1]].
  exists r1. split; [exact Hin1|].
  unfold same_repository in *.
  destruct H1 as (? & ? & ? & ? & ? & ?), H2 as (? & ? & ? & ? & ? & ?).
  repeat split; congruence.
Qed.

Lemma drawn_from_incl (l l' : list repo) :
  (forall r, In r l' -> In r l) -> drawn_from l l'.
Proof.
  intro Hincl. apply Forall_forall. intros r Hin. exists r.
  split; [apply Hincl, Hin|]. unfold same_repository. repeat split; reflexivity.
Qed.

Lemma drawn_from_Forall2 (R : repo -> repo -> Prop) (l l' : list repo) :
  (forall r r', R r r' -> same_repository r r') ->
  Forall2 R l l' -> drawn_from l l'.
Proof.
  intros HR Hall. apply Forall_forall. intros r' Hin'.
  induction Hall as [|r r1 l l' Hr Hall IH]; [destruct Hin'|].
  destruct Hin' as [<- | Hin'].
  - exists r. split; [left; reflexivity | apply HR, Hr].
  - destruct (IH Hin') as [r0 [Hin0 H0]].
    exists r0. split; [right; exact Hin0 | exact H0].
Qed.

Lemma drawn_from_stars_valid (l l' : list repo) :
  stars_valid l -> drawn_from l l' -> stars_valid l'.
Proof.
  unfold stars_valid, drawn_from. rewrite !Forall_forall.
  intros Hvalid Hdrawn r' Hin'.
  destruct (Hdrawn r' Hin') as [r [Hin (_ & _ & _ & Hstars & _)]].
  rewrite Hstars. apply Hvalid, Hin.
Qed.

Lemma dense_retrieval_stage
    (env : environment) (cfg : AgentConfiguration) (user_query : string)
    (repositories : list repo) (h : history) :
  models_well_behaved env ->
  (1 <= dense_retrieval_k cfg)%Z ->
  exists ranked h',
    dense_retrieval env cfg user_query repositories h = (Ok ranked, h')
    /\ List.length ranked = List.length repositories
    /\ drawn_from repositories ranked.
Proof.
  intros [Hencode _] Htop.
  destruct repositories as [|r repositories'] eqn:Erepos.
  - eexists. eexists. split; [reflexivity|].
    split; [reflexivity | constructor].
  - rewrite <- Erepos.
    assert (Hne : repositories <> []) by (rewrite Erepos; discriminate).
    destruct (dense_retrieval_returns env cfg user_query repositories h
                Htop Hne (Hencode _ _))
      as (annotated & Hannotate & Hrun).
    apply annotate_similarity_frame in Hannotate.
    eexists. eexists. split; [exact Hrun|]. split.
    + rewrite sorted_reverse_length. symmetry.
      apply (Forall2_length Hannotate).
    + apply drawn_from_trans with annotated.
      * apply (drawn_from_Forall2 same_but_similarity); [|exact Hannotate].
        intros r0 r' (? & ? & ? & ? & ? & ? & _).
        unfold same_repository. repeat split; assumption.
      * apply drawn_from_incl. intros r0 Hin.
        apply Permutation_in
          with (l := sorted_reverse similarity_signal annotated);
          [apply Permutation_sym, sorted_reverse_perm | exact Hin].
Qed.

Lemma cross_encoder_rerank_stage
    (env : environment) (cfg : AgentConfiguration) (user_query : string)
    (semantic_ranked : list repo) (h : history) :
  models_well_behaved env ->
  (0 <= cross_encoder_top_n cfg)%Z ->
  exists out h',
    cross_encoder_rerank env cfg user_query semantic_ranked h = (Ok out, h')
    /\ List.length out
       = Nat.min (Z.to_nat (cross_encoder_top_n cfg))
           (Nat.min 100 (List.length semantic_ranked))
    /\ drawn_from semantic_ranked out.
Proof.
  intros [_ Hpredict] Htop.
  pose proof (cross_encoder_rerank_returns env cfg user_query semantic_ranked h
                (Hpredict _ _)) as Hrun.
  cbv zeta in Hrun. rewrite (py_prefix_firstn _ _ Htop) in Hrun.
  set (candidates := firstn 100 semantic_ranked) in *.
  set (scores := ce_predict env _ _) in *.
  assert (Hlen : List.length scores = List.length candidates).
  { unfold scores. rewrite Hpredict. apply length_map. }
  eexists. eexists. split; [exact Hrun|]. split.
  - rewrite length_firstn, sorted_reverse_length, length_map, length_combine,
      Hlen, Nat.min_id.
    unfold candidates. rewrite length_firstn. reflexivity.
  - apply drawn_from_trans with candidates.
    + apply drawn_from_incl. intros r Hin. apply (In_firstn 100), Hin.
    + apply drawn_from_trans
        with (map (fun p => set_cross_encoder_score (snd p) (fst p))
                (combine candidates scores)).
      * apply (drawn_from_Forall2 same_but_reranker);
          [|apply scored_frame, Hlen].
        intros r r' (? & ? & ? & ? & ? & ? & _).
        unfold same_repository. repeat split; assumption.
      * apply drawn_from_incl. intros r Hin. apply In_firstn in Hin.
        eapply Permutation_in;
          [apply Permutation_sym, sorted_reverse_perm | exact Hin].
Qed.

Lemma filter_candidates_stage (cfg : AgentConfiguration) (l : list repo) :
  (l <> [] -> filter_candidates cfg l <> [])
  /\ (List.length (filter_candidates cfg l) <= List.length l)%nat
  /\ drawn_from l (filter_candidates cfg l).
Proof.
  destruct (filter_candidates_cases cfg l) as [[_ Heq] | [Hkept Heq]];
    rewrite Heq.
  - split; [auto|]. split; [lia | apply drawn_from_refl].
  - split; [intros _; exact Hkept|]. split.
    + apply filter_length_le.
    + apply drawn_from_incl. intros r Hin. apply filter_In in Hin. apply Hin.
Qed.

Lemma analyze_activity_stage
    (env : environment) (l : list repo) (h : history) :
  exists out h',
    analyze_activity env l h = (Ok out, h')
    /\ List.length out = List.length l
    /\ drawn_from l out.
Proof.
  assert (Hrun : exists out h',
            analyze_activity env l h = (Ok out, h')
            /\ Forall2 same_but_activity l out).
  { revert h. induction l as [|r l IH]; intro h.
    - exists [], h. split; [reflexivity | constructor].
    - simpl analyze_activity. cbn [bind M_monad].
      rewrite (analyze_repository_activity_returns env r h). cbv zeta.
      match goal with
      | |- context [analyze_activity env l ?h1] =>
          destruct (IH h1) as [out [h' [Hrun Hframe]]]; rewrite Hrun
      end.
      eexists. eexists. split; [reflexivity|].
      constructor; [apply update_activity_frame | exact Hframe]. }
  destruct Hrun as (out & h' & Hrun & Hframe).
  exists out, h'. split; [exact Hrun|]. split.
  - symmetry. apply (Forall2_length Hframe).
  - apply (drawn_from_Forall2 same_but_activity); [|exact Hframe].
    intros r r' (? & ? & ? & ? & ? & ? & _).
    unfold same_repository. repeat split; assumption.
Qed.

Lemma final_ranking_stage (env : environment) (l : list repo) :
  l <> [] -> stars_valid l ->
  exists ranked,
    final_ranking env l = Ok ranked
    /\ List.length ranked = List.length l
    /\ drawn_from l ranked
    /\ descending final_score_of ranked.
Proof.
  intros Hne Hstars.
  destruct (final_ranking_returns env l Hne Hstars) as [score [_ Hrun]].
  eexists. split; [exact Hrun|].
  split; [rewrite sorted_reverse_length; apply length_map|].
  split; [|apply sorted_reverse_sorted].
  apply Forall_forall. intros r' Hin.
  apply ranked_candidates in Hin. destruct Hin as [r [Hin ->]].
  exists r. split; [exact Hin|]. unfold same_repository. repeat split; reflexivity.
Qed.

(** *** Lookups that can raise *)

(** In a world where every lookup replies, the lookups of a candidate are
    those of the stage over [environment]. *)
Lemma analyze_repository_activity_replying
    (env : environment) (r : repo) (h : history) :
  Lookups.analyze_repository_activity (Lookups.replying env) r h
  = Lookups.from_stage (analyze_repository_activity env r) h.
Proof.
  unfold Lookups.from_stage.
  rewrite (analyze_repository_activity_returns env r h). cbv zeta.
  unfold Lookups.analyze_repository_activity, Lookups.get, Lookups.json_of,
    Lookups.from_stage, Lookups.replying, invoke.
  cbn [bind ret Lookups.L_monad Lookups.pulls Lookups.commits Lookups.clock
       fst snd].
  destruct (pulls_status_code _ =? 200)%Z;
    cbn [bind ret Lookups.L_monad fst snd];
    (destruct (commits_status_code _ =? 200)%Z; [|reflexivity]);
    cbn [bind ret Lookups.L_monad fst snd];
    (destruct (commits_json _); reflexivity).
Qed.

Lemma analyze_activity_replying
    (env : environment) (l : list repo) (h : history) :
  Lookups.analyze_activity (Lookups.replying env) l h
  = Lookups.from_stage (analyze_activity env l) h.
Proof.
  revert h. induction l as [|r l IH]; intro h; [reflexivity|].
  cbn [Lookups.analyze_activity bind Lookups.L_monad].
  rewrite analyze_repository_activity_replying.
  unfold Lookups.from_stage.
  cbn [analyze_activity bind ret M_monad].
  destruct (analyze_repository_activity env r h) as [[d|e] h1];
    [|reflexivity].
  rewrite IH. unfold Lookups.from_stage.
  destruct (analyze_activity env l h1) as [[out|e] h2]; reflexivity.
Qed.

(** C6. A commit lookup that fails by raising aborts the stage: when the
    pull-request lookup of a candidate has replied, and [requests.get]
    raises on the commit lookup, or its response with status 200 has a body
    that is not JSON, or its first commit cannot be read, the lookups of
    the candidate end with that exception after the two requests; no
    [latest_commit_days] of 999 is produced. *)
Theorem commit_lookup_failure_aborts
    (w : Lookups.world) (r : repo) (h : history)
    (status_code : Z) (prs : list string) (f : Lookups.failure) :
  let name := full_name r in
  let h1 := h ++ [Get_pulls name] in
  Lookups.pulls w h name = Lookups.Response status_code (Some prs) ->
  Lookups.commit_lookup_failure (Lookups.commits w h1 name) = Some f ->
  Lookups.analyze_repository_activity w r h
  = (Lookups.Failed f, h1 ++ [Get_commits name]).
Proof.
  intros name h1 Hpulls Hcommits.
  unfold Lookups.analyze_repository_activity, Lookups.get, Lookups.json_of.
  cbn [bind ret Lookups.L_monad]. fold name. rewrite Hpulls.
  cbn [fst snd].
  assert (Hcount : forall k : Z -> Lookups.L activity_data,
            (let (o, h') :=
               (if (status_code =? 200)%Z
                then fun h0 : history => (Lookups.Done (Z.of_nat (List.length prs)), h0)
                else fun h0 : history => (Lookups.Done 0%Z, h0)) h1 in
             match o with
             | Lookups.Done a => k a h'
             | Lookups.Failed f0 => (Lookups.Failed f0, h')
             end)
            = k (if (status_code =? 200)%Z
                 then Z.of_nat (List.length prs) else 0%Z) h1).
  { intro k. destruct (status_code =? 200)%Z; reflexivity. }
  fold h1. rewrite Hcount.
  unfold Lookups.commit_lookup_failure in Hcommits.
  destruct (Lookups.commits w h1 name) as [|c_status c_json].
  - injection Hcommits as <-. reflexivity.
  - cbn [fst snd]. destruct (c_status =? 200)%Z; [|discriminate].
    destruct c_json as [[|[date|e] commit_data]|].
    + discriminate.
    + discriminate.
    + injection Hcommits as <-. reflexivity.
    + injection Hcommits as <-. reflexivity.
Qed.

(** A candidate whose commit request raises: the stage ends with
    [RequestException]. *)
Lemma commit_lookup_failure_aborts_witness :
  Lookups.pulls Lookups.sample_world [] "o/down"
  = Lookups.Response 200 (Some ["pr 1"; "pr 2"]%string)
  /\ Lookups.commit_lookup_failure
       (Lookups.commits Lookups.sample_world [Get_pulls "o/down"] "o/down")
     = Some Lookups.RequestException
  /\ Lookups.analyze_repository_activity Lookups.sample_world
       (Sample.fetched "o/down" "alpha" 10 7) []
     = (Lookups.Failed Lookups.RequestException,
        [Get_pulls "o/down"; Get_commits "o/down"]).
Proof.
  split; [reflexivity|]. split; [reflexivity|].
  apply (commit_lookup_failure_aborts Lookups.sample_world
           (Sample.fetched "o/down" "alpha" 10 7) [] 200
           ["pr 1"; "pr 2"]%string Lookups.RequestException);
    reflexivity.
Defined.

(** X14. The graph from dense retrieval to final ranking, end to end, in a
    world where every activity lookup replies: with well-behaved models, a
    top-K and a top-N of at least 1 and a non-empty list of repositories
    with valid star counts, the run returns; it returns at least one
    candidate and at most min(N, 100, number of repositories); every ranked
    candidate is one of the fetched repositories (same title, link,
    documentation, stars, name and open-issue count); and the ranking is in
    descending order of the final score. *)
Theorem ranking_pipeline_postcondition
    (env : environment) (cfg : AgentConfiguration) (user_query : string)
    (repositories : list repo) (h : history) :
  models_well_behaved env ->
  (1 <= dense_retrieval_k cfg)%Z ->
  (1 <= cross_encoder_top_n cfg)%Z ->
  repositories <> [] ->
  stars_valid repositories ->
  exists ranked h',
    Lookups.ranking_pipeline (Lookups.replying env) env cfg user_query
      repositories h
    = (Lookups.Done ranked, h')
    /\ (1 <= List.length ranked
        <= Nat.min (Z.to_nat (cross_encoder_top_n cfg))
             (Nat.min 100 (List.length repositories)))%nat
    /\ drawn_from repositories ranked
    /\ descending final_score_of ranked.
Proof.
  intros Hmodels Hk Htop Hne Hstars.
  destruct (dense_retrieval_stage env cfg user_query repositories h Hmodels Hk)
    as (semantic_ranked & h1 & Hdense & Hlen1 & Hfrom1).
  destruct (cross_encoder_rerank_stage env cfg user_query semantic_ranked h1
              Hmodels ltac:(lia))
    as (reranked & h2 & Hrerank & Hlen2 & Hfrom2).
  destruct (filter_candidates_stage cfg reranked) as (Hne3 & Hlen3 & Hfrom3).
  destruct (analyze_activity_stage env (filter_candidates cfg reranked) h2)
    as (analyzed & h3 & Hactivity & Hlen4 & Hfrom4).
  assert (Hrepos : (1 <= List.length repositories)%nat).
  { destruct repositories; [congruence | simpl; lia]. }
  assert (Hreranked : reranked <> []).
  { intros ->. change (List.length (@nil repo)) with 0%nat in Hlen2. lia. }
  assert (Hanalyzed : analyzed <> []).
  { intros ->. apply Hne3 in Hreranked.
    destruct (filter_candidates cfg reranked); [congruence | discriminate]. }
  assert (Hfrom : drawn_from repositories analyzed).
  { apply drawn_from_trans with semantic_ranked; [exact Hfrom1|].
    apply drawn_from_trans with reranked; [exact Hfrom2|].
    apply drawn_from_trans with (filter_candidates cfg reranked); assumption. }
  destruct (final_ranking_stage env analyzed Hanalyzed
              (drawn_from_stars_valid _ _ Hstars Hfrom))
    as (ranked & Hfinal & Hlen5 & Hfrom5 & Hsorted).
  exists ranked, h3. split.
  - unfold Lookups.ranking_pipeline. cbn [bind Lookups.L_monad].
    unfold Lookups.from_stage at 1. rewrite Hdense.
    unfold Lookups.from_stage at 1. rewrite Hrerank.
    rewrite analyze_activity_replying.
    unfold Lookups.from_stage at 1. rewrite Hactivity.
    unfold Lookups.from_stage, lift. rewrite Hfinal. reflexivity.
  - split; [|split; [apply drawn_from_trans with analyzed; assumption
                    | exact Hsorted]].
    rewrite Hlen5, Hlen4.
    assert (1 <= List.length (filter_candidates cfg reranked))%nat.
    { specialize (Hne3 Hreranked).
      destruct (filter_candidates cfg reranked); [congruence | simpl; lia]. }
    lia.
Qed.

Lemma ranking_pipeline_postcondition_witness :
  models_well_behaved Sample.world
  /\ (1 <= dense_retrieval_k (Sample.config 100))%Z
  /\ (1 <= cross_encoder_top_n (Sample.config 100))%Z
  /\ [Sample.B; Sample.A] <> []
  /\ stars_valid [Sample.B; Sample.A]
  /\ exists ranked,
       fst (Lookups.ranking_pipeline (Lookups.replying Sample.world)
              Sample.world (Sample.config 100) "query" [Sample.B; Sample.A] [])
       = Lookups.Done ranked
       /\ (1 <= List.length ranked <= 2)%nat.
Proof.
  assert (Hmodels : models_well_behaved Sample.world).
  { split; intros; apply length_map. }
  assert (Hk : (1 <= dense_retrieval_k (Sample.config 100))%Z)
    by discriminate.
  assert (Htop : (1 <= cross_encoder_top_n (Sample.config 100))%Z)
    by discriminate.
  assert (Hne : [Sample.B; Sample.A] <> []) by discriminate.
  assert (Hstars : stars_valid [Sample.B; Sample.A]).
  { repeat constructor; discriminate. }
  split; [exact Hmodels|]. split; [exact Hk|]. split; [exact Htop|].
  split; [exact Hne|]. split; [exact Hstars|].
  destruct (ranking_pipeline_postcondition Sample.world (Sample.config 100)
              "query" [Sample.B; Sample.A] [] Hmodels Hk Htop Hne Hstars)
    as (ranked & h' & Hrun & Hlen & _).
  exists ranked. rewrite Hrun. split; [reflexivity|].
  simpl in Hlen. lia.
Defined.

(** X15. A top-N of 0 ends the run with an exception: with well-behaved
    models and a top-K of at least 1, whatever the activity lookups would
    reply, re-ranking returns no candidate, no lookup is made, and the
    final ranking raises [ValueError] on the empty list. *)
Theorem ranking_pipeline_top_n_zero
    (w : Lookups.world) (env : environment) (cfg : AgentConfiguration)
    (user_query : string) (repositories : list repo) (h : history) :
  models_well_behaved env ->
  (1 <= dense_retrieval_k cfg)%Z ->
  cross_encoder_top_n cfg = 0%Z ->
  fst (Lookups.ranking_pipeline w env cfg user_query repositories h)
  = Lookups.Failed
      (Lookups.Python (ValueError "min() arg is an empty sequence")).
Proof.
  intros Hmodels Hk Htop.
  destruct (dense_retrieval_stage env cfg user_query repositories h Hmodels Hk)
    as (semantic_ranked & h1 & Hdense & _).
  destruct (cross_encoder_rerank_stage env cfg user_query semantic_ranked h1
              Hmodels ltac:(lia))
    as (reranked & h2 & Hrerank & Hlen & _).
  rewrite Htop in Hlen. change (Z.to_nat 0) with 0%nat in Hlen.
  rewrite Nat.min_0_l in Hlen.
  destruct reranked; [|discriminate].
  unfold Lookups.ranking_pipeline. cbn [bind Lookups.L_monad].
  unfold Lookups.from_stage at 1. rewrite Hdense.
  unfold Lookups.from_stage at 1. rewrite Hrerank. reflexivity.
Qed.

Lemma ranking_pipeline_top_n_zero_witness :
  models_well_behaved Sample.world
  /\ (1 <= dense_retrieval_k (mk_config 100 0 50 (55 # 10) "m" "c"))%Z
  /\ fst (Lookups.ranking_pipeline Lookups.sample_world Sample.world
            (mk_config 100 0 50 (55 # 10) "m" "c") "query"
            [Sample.B; Sample.A] [])
     = Lookups.Failed
         (Lookups.Python (ValueError "min() arg is an empty sequence")).
Proof.
  assert (Hmodels : models_well_behaved Sample.world).
  { split; intros; apply length_map. }
  split; [exact Hmodels|]. split; [discriminate|].
  apply (ranking_pipeline_top_n_zero Lookups.sample_world Sample.world
           (mk_config 100 0 50 (55 # 10) "m" "c") "query"
           [Sample.B; Sample.A] [] Hmodels).
  - discriminate.
  - reflexivity.
Defined.

(** ** Node 1: fetching repositories *)

Module FetchFacts.
Import Fetch.

Local Open Scope string_scope.

Lemma str_append_assoc (a b c : string) : (a ++ b) ++ c = a ++ (b ++ c).
Proof.
  induction a as [|x a IH]; simpl; [reflexivity | rewrite IH; reflexivity].
Qed.

Lemma str_append_nil_r (a : string) : a ++ "" = a.
Proof.
  induction a as [|x a IH]; simpl; [reflexivity | rewrite IH; reflexivity].
Qed.

Lemma prefix_append (a b : string) : prefix a (a ++ b) = true.
Proof.
  induction a as [|x a IH]; simpl.
  - destruct b; reflexivity.
  - destruct (Ascii.ascii_dec x x); [exact IH | congruence].
Qed.

Lemma truthy_iff (s : string) : truthy s = true <-> s <> "".
Proof.
  unfold truthy. rewrite negb_true_iff. split.
  - intros E ->. discriminate.
  - intro Hne. apply String.eqb_neq. exact Hne.
Qed.

Lemma search_requests_app (h h' : list request) :
  search_requests (h ++ h')%list
  = (search_requests h ++ search_requests h')%list.
Proof.
  unfold search_requests. apply filter_app.
Qed.

Section Documentation.
Variable gh : github.

Lemma fetch_file_content_returns (download_url : string) (h : list request) :
  exists text,
    fetch_file_content gh download_url h
    = (Returned text, (h ++ [Download download_url])%list).
Proof.
  unfold fetch_file_content, send. cbn [bind ret F_monad].
  destruct (download_reply gh h download_url) as [[status_code text]|].
  - destruct (status_code =? 200)%Z; eexists; reflexivity.
  - eexists. reflexivity.
Qed.

Lemma directory_loop_returns (items : list entry) (md_content : string)
    (h : list request) :
  exists suffix added,
    directory_loop gh items md_content h
    = (Returned (md_content ++ suffix), (h ++ added)%list)
    /\ search_requests added = [].
Proof.
  revert md_content h.
  induction items as [|item items IH]; intros md_content h.
  - exists "", []. simpl. rewrite str_append_nil_r, app_nil_r.
    split; reflexivity.
  - cbn [directory_loop]. destruct (is_markdown_file item).
    + cbn [bind F_monad].
      destruct (fetch_file_content_returns (entry_download_url item) h)
        as [content ->].
      match goal with
      | |- context [directory_loop gh items ?md ?h1] =>
          destruct (IH md h1) as (suffix & added & -> & Hadded)
      end.
      eexists. exists ([Download (entry_download_url item)] ++ added)%list.
      split.
      * rewrite str_append_assoc, <- app_assoc. reflexivity.
      * rewrite search_requests_app, Hadded. reflexivity.
    + apply IH.
Qed.

Lemma fetch_directory_markdown_returns (repo_full_name path : string)
    (h : list request) :
  exists markdown added,
    fetch_directory_markdown gh repo_full_name path h
    = (Returned markdown, (h ++ added)%list)
    /\ search_requests added = [].
Proof.
  unfold fetch_directory_markdown, send. cbn [bind ret F_monad].
  destruct (contents_status_code _ =? 200)%Z.
  - match goal with
    | |- context [directory_loop gh ?items ?md ?h1] =>
        destruct (directory_loop_returns items md h1)
          as (suffix & added & -> & Hadded)
    end.
    eexists. eexists. split; [rewrite <- app_assoc; reflexivity|].
    rewrite search_requests_app, Hadded. reflexivity.
  - eexists. eexists. split; reflexivity.
Qed.

Lemma root_loop_returns (repo_full_name : string) (items : list entry)
    (doc_text : string) (h : list request) :
  exists suffix added,
    root_loop gh repo_full_name items doc_text h
    = (Returned (doc_text ++ suffix), (h ++ added)%list)
    /\ search_requests added = [].
Proof.
  revert doc_text h.
  induction items as [|item items IH]; intros doc_text h.
  - exists "", []. simpl. rewrite str_append_nil_r, app_nil_r.
    split; reflexivity.
  - cbn [root_loop]. destruct (is_markdown_file item).
    + destruct (negb (String.eqb (str_lower (entry_name item)) "readme.md"));
        [|apply IH].
      cbn [bind F_monad].
      destruct (fetch_file_content_returns (entry_download_url item) h)
        as [content ->].
      match goal with
      | |- context [root_loop gh repo_full_name items ?doc ?h1] =>
          destruct (IH doc h1) as (suffix & added & -> & Hadded)
      end.
      eexists. exists ([Download (entry_download_url item)] ++ added)%list.
      split.
      * rewrite str_append_assoc, <- app_assoc. reflexivity.
      * rewrite search_requests_app, Hadded. reflexivity.
    + destruct (String.eqb (entry_type item) "dir" && _); [|apply IH].
      cbn [bind F_monad].
      destruct (fetch_directory_markdown_returns repo_full_name
                  (entry_name item) h)
        as (markdown & added1 & -> & Hadded1).
      match goal with
      | |- context [root_loop gh repo_full_name items ?doc ?h1] =>
          destruct (IH doc h1) as (suffix & added & -> & Hadded)
      end.
      eexists. exists (added1 ++ added)%list.
      split.
      * rewrite str_append_assoc, <- app_assoc. reflexivity.
      * rewrite search_requests_app, Hadded1, Hadded. reflexivity.
Qed.

Lemma fetch_readme_content_returns (repo_full_name : string)
    (h : list request) :
  fetch_readme_content gh repo_full_name h
  = (Returned (if (readme_status_code (readme_reply gh h repo_full_name) =? 200)%Z
               then readme_text (readme_reply gh h repo_full_name) else ""),
     (h ++ [Readme repo_full_name])%list).
Proof.
  unfold fetch_readme_content, send. cbn [bind ret F_monad].
  destruct (readme_status_code _ =? 200)%Z; reflexivity.
Qed.

(** The documentation of a repository, with the README reply [readme] and
    the reply [listing] for the root. *)
Lemma fetch_repo_documentation_returns (repo_full_name : string)
    (h : list request) :
  let readme := readme_reply gh h repo_full_name in
  let h1 := (h ++ [Readme repo_full_name])%list in
  let listing := contents_reply gh h1 repo_full_name None in
  let doc_text :=
    if (readme_status_code readme =? 200)%Z && truthy (readme_text readme)
    then ("# README" ++ nl) ++ readme_text readme else "" in
  exists suffix added,
    fetch_repo_documentation gh repo_full_name h
    = (Returned (if truthy (str_strip (doc_text ++ suffix))
                 then doc_text ++ suffix
                 else "No documentation available."),
       (h1 ++ Contents repo_full_name None :: added)%list)
    /\ search_requests added = []
    /\ ((contents_status_code listing =? 200)%Z = false ->
        suffix = "" /\ added = []).
Proof.
  intros readme h1 listing doc_text.
  unfold fetch_repo_documentation. cbn [bind F_monad].
  rewrite fetch_readme_content_returns. fold readme. fold h1.
  unfold send. cbn [ret F_monad]. fold listing.
  set (text := if (readme_status_code readme =? 200)%Z
               then readme_text readme else "").
  assert (Hdoc : (if truthy text then "" ++ ("# README" ++ nl) ++ text else "")
                 = doc_text).
  { unfold doc_text, text. destruct (readme_status_code readme =? 200)%Z;
      [|reflexivity].
    simpl. destruct (truthy (readme_text readme)); reflexivity. }
  rewrite Hdoc.
  destruct (contents_status_code listing =? 200)%Z eqn:E.
  - destruct (root_loop_returns repo_full_name (contents_entries listing)
                doc_text (h1 ++ [Contents repo_full_name None])%list)
      as (suffix & added & -> & Hadded).
    exists suffix, added. split; [|split; [exact Hadded | discriminate]].
    rewrite <- app_assoc. simpl.
    destruct (truthy (str_strip (doc_text ++ suffix))); reflexivity.
  - exists "", []. rewrite str_append_nil_r.
    split; [|split; [reflexivity | intros _; split; reflexivity]].
    destruct (truthy (str_strip doc_text)); reflexivity.
Qed.

Lemma str_rstrip_head (c : Ascii.ascii) (s : string) :
  is_space c = false -> str_rstrip (String c s) <> "".
Proof.
  intro Hc. simpl. rewrite Hc. destruct (str_rstrip s); discriminate.
Qed.

(** The function returns, extends the history without a search, and its
    text is not blank. *)
Lemma fetch_repo_documentation_runs (repo_full_name : string)
    (h : list request) :
  exists doc added,
    fetch_repo_documentation gh repo_full_name h
    = (Returned doc, (h ++ added)%list)
    /\ str_strip doc <> ""
    /\ search_requests added = [].
Proof.
  destruct (fetch_repo_documentation_returns repo_full_name h)
    as (suffix & added & Hrun & Hadded & _).
  cbv zeta in Hrun. eexists. eexists.
  split; [rewrite Hrun, <- app_assoc; reflexivity|].
  split.
  - match goal with
    | |- str_strip (if truthy ?t then _ else _) <> "" =>
        destruct (truthy t) eqn:E
    end.
    + apply truthy_iff, E.
    + discriminate.
  - simpl. exact Hadded.
Qed.

(** X16. The documentation of a repository is never blank: whatever the
    status codes and the contents of the replies, the function returns; it
    first asks for the README and then for the listing of the root, and
    sends no search request; and it returns a text that [strip] does not
    empty (the fixed sentence [No documentation available.] when nothing
    else was found). *)
Theorem fetch_repo_documentation_not_blank (repo_full_name : string)
    (h : list request) :
  exists doc others,
    fetch_repo_documentation gh repo_full_name h
    = (Returned doc,
       (h ++ Readme repo_full_name :: Contents repo_full_name None :: others)%list)
    /\ str_strip doc <> ""
    /\ search_requests others = [].
Proof.
  destruct (fetch_repo_documentation_returns repo_full_name h)
    as (suffix & added & Hrun & Hadded & _).
  cbv zeta in Hrun. eexists. exists added.
  split; [rewrite Hrun, <- app_assoc; reflexivity|].
  split; [|exact Hadded].
  match goal with
  | |- str_strip (if truthy ?t then _ else _) <> "" =>
      destruct (truthy t) eqn:E
  end.
  - apply truthy_iff, E.
  - discriminate.
Qed.

(** X17. The README comes first: when the README request succeeds with a
    text that is not empty, the documentation returned starts with the line
    [# README] followed by that text. *)
Theorem fetch_repo_documentation_readme_first (repo_full_name : string)
    (h : list request) :
  let readme := readme_reply gh h repo_full_name in
  readme_status_code readme = 200%Z ->
  readme_text readme <> "" ->
  exists doc h',
    fetch_repo_documentation gh repo_full_name h = (Returned doc, h')
    /\ prefix (("# README" ++ nl) ++ readme_text readme) doc = true.
Proof.
  intros readme Hstatus Htext.
  destruct (fetch_repo_documentation_returns repo_full_name h)
    as (suffix & added & Hrun & _).
  cbv zeta in Hrun. fold readme in Hrun.
  apply Z.eqb_eq in Hstatus. apply truthy_iff in Htext.
  rewrite Hstatus, Htext in Hrun. cbn [andb] in Hrun.
  assert (Hstrip : truthy (str_strip ((("# README" ++ nl)
                                        ++ readme_text readme) ++ suffix))
                   = true).
  { apply truthy_iff. simpl. apply str_rstrip_head. reflexivity. }
  rewrite Hstrip in Hrun.
  eexists. eexists. split; [exact Hrun | apply prefix_append].
Qed.

(** X18. When nothing can be fetched the documentation is the fixed
    sentence: if the README request fails or gives an empty text and the
    listing of the root fails, the function returns
    [No documentation available.] after exactly these two requests. *)
Theorem fetch_repo_documentation_unavailable (repo_full_name : string)
    (h : list request) :
  let readme := readme_reply gh h repo_full_name in
  let h1 := (h ++ [Readme repo_full_name])%list in
  let listing := contents_reply gh h1 repo_full_name None in
  readme_status_code readme <> 200%Z \/ readme_text readme = "" ->
  contents_status_code listing <> 200%Z ->
  fetch_repo_documentation gh repo_full_name h
  = (Returned "No documentation available.",
     (h ++ [Readme repo_full_name; Contents repo_full_name None])%list).
Proof.
  intros readme h1 listing Hreadme Hlisting.
  destruct (fetch_repo_documentation_returns repo_full_name h)
    as (suffix & added & Hrun & _ & Hfailed).
  cbv zeta in Hrun, Hfailed. fold readme h1 listing in Hrun, Hfailed.
  apply Z.eqb_neq in Hlisting. destruct (Hfailed Hlisting) as [-> ->].
  assert (Hdoc : (readme_status_code readme =? 200)%Z
                 && truthy (readme_text readme) = false).
  { destruct Hreadme as [Hstatus | ->].
    - apply Z.eqb_neq in Hstatus. rewrite Hstatus. reflexivity.
    - apply andb_false_r. }
  rewrite Hdoc in Hrun. rewrite Hrun. unfold h1.
  rewrite <- app_assoc. reflexivity.
Qed.

End Documentation.

Lemma fetch_repo_documentation_readme_first_witness :
  readme_status_code (readme_reply sample_github [] "o/a") = 200%Z
  /\ readme_text (readme_reply sample_github [] "o/a") <> ""
  /\ exists doc h',
       fetch_repo_documentation sample_github "o/a" [] = (Returned doc, h')
       /\ prefix (("# README" ++ nl) ++ "alpha") doc = true.
Proof.
  split; [reflexivity|]. split; [discriminate|].
  apply (fetch_repo_documentation_readme_first sample_github "o/a" []).
  - reflexivity.
  - discriminate.
Defined.

Lemma fetch_repo_documentation_unavailable_witness :
  (readme_status_code (readme_reply sample_github [] "o/b") <> 200%Z
   \/ readme_text (readme_reply sample_github [] "o/b") = "")
  /\ contents_status_code
       (contents_reply sample_github [Readme "o/b"] "o/b" None) <> 200%Z
  /\ fetch_repo_documentation sample_github "o/b" []
     = (Returned "No documentation available.",
        [Readme "o/b"; Contents "o/b" None]).
Proof.
  split; [right; reflexivity|]. split; [discriminate|].
  apply (fetch_repo_documentation_unavailable sample_github "o/b" []).
  - right. reflexivity.
  - discriminate.
Defined.

Section Search.
Variable gh : github.

(** The loop over the items of a page: it raises at the first item
    without [html_url], and otherwise appends one repository per item. *)
Lemma items_loop_spec (items : list search_item) (repositories : list repo)
    (h : list request) :
  exists out added,
    items_loop gh items repositories h = (out, (h ++ added)%list)
    /\ search_requests added = []
    /\ match out with
       | Returned repositories' =>
           exists new,
             repositories' = (repositories ++ new)%list
             /\ List.length new = List.length items
             /\ Forall freshly_fetched new
             /\ Forall (fun item => item_html_url item <> None) items
       | Raised e =>
           e = Missing "html_url"
           /\ Exists (fun item => item_html_url item = None) items
       end.
Proof.
  revert repositories h.
  induction items as [|item items IH]; intros repositories h.
  - exists (Returned repositories), []. rewrite app_nil_r.
    split; [reflexivity|]. split; [reflexivity|].
    exists []. rewrite app_nil_r. repeat split; constructor.
  - cbn [items_loop bind F_monad].
    destruct (item_html_url item) as [url|] eqn:Eurl.
    + cbn [ret F_monad].
      destruct (fetch_repo_documentation_runs gh
                  (dict_get (item_full_name item) "") h)
        as (doc & added1 & -> & Hdoc & Hadded1).
      match goal with
      | |- context [items_loop gh items ?repos ?h1] =>
          destruct (IH repos h1) as (out & added & -> & Hadded & Hout)
      end.
      exists out, (added1 ++ added)%list.
      split; [rewrite <- app_assoc; reflexivity|].
      split; [rewrite search_requests_app, Hadded1, Hadded; reflexivity|].
      destruct out as [repositories'|e].
      * destruct Hout as (new & -> & Hlen & Hfresh & Hurls).
        eexists. split; [rewrite <- app_assoc; reflexivity|].
        split; [simpl; rewrite Hlen; reflexivity|].
        split.
        -- constructor; [|exact Hfresh].
           unfold freshly_fetched. simpl. repeat split. exact Hdoc.
        -- constructor; [congruence | exact Hurls].
      * destruct Hout as [-> Hmissing].
        split; [reflexivity | apply Exists_cons_tl, Hmissing].
    + exists (Raised (Missing "html_url")), []. rewrite app_nil_r.
      split; [reflexivity|]. split; [reflexivity|].
      split; [reflexivity | apply Exists_cons_hd, Eurl].
Qed.

(** The loop over the pages: the searches it sends are those of a prefix
    of the pages, in order. *)
Lemma pages_loop_spec (query : string) (per_page : Z) (pages : list Z)
    (repositories : list repo) (h : list request) :
  Forall freshly_fetched repositories ->
  exists out added m,
    pages_loop gh query per_page pages repositories h
    = (out, (h ++ added)%list)
    /\ search_requests added = map (Search query per_page) (firstn m pages)
    /\ match out with
       | Returned repositories' => Forall freshly_fetched repositories'
       | Raised e => e = Missing "html_url" \/ e = JSONDecodeError
       end.
Proof.
  revert repositories h.
  induction pages as [|page pages IH]; intros repositories h Hfresh.
  - exists (Returned repositories), [], 0%nat. rewrite app_nil_r.
    split; [reflexivity|]. split; [reflexivity | exact Hfresh].
  - cbn [pages_loop bind F_monad]. unfold send.
    set (h1 := (h ++ [Search query per_page page])%list).
    set (response := search_reply gh h query per_page page).
    destruct (search_body response) as [items|].
    + destruct (negb (search_status_code response =? 200)%Z).
      * exists (Returned repositories), [Search query per_page page], 1%nat.
        split; [reflexivity|]. split; [reflexivity | exact Hfresh].
      * destruct items as [|item items].
        -- exists (Returned repositories), [Search query per_page page], 1%nat.
           split; [reflexivity|]. split; [reflexivity | exact Hfresh].
        -- destruct (items_loop_spec (item :: items) repositories h1)
             as (out1 & added1 & Hrun1 & Hadded1 & Hout1).
           cbn [bind F_monad]. rewrite Hrun1.
           destruct out1 as [repositories'|e].
           ++ destruct Hout1 as (new & -> & _ & Hnew & _).
              destruct (IH (repositories ++ new)%list (h1 ++ added1)%list)
                as (out & added & m & -> & Hadded & Hout).
              { apply Forall_app. split; assumption. }
              exists out,
                ([Search query per_page page] ++ added1 ++ added)%list, (S m).
              split; [unfold h1; rewrite <- !app_assoc; reflexivity|].
              split; [|exact Hout].
              rewrite !search_requests_app, Hadded1, Hadded. reflexivity.
           ++ destruct Hout1 as [-> _].
              exists (Raised (Missing "html_url")),
                     ([Search query per_page page] ++ added1)%list, 1%nat.
              split; [unfold h1; rewrite <- app_assoc; reflexivity|].
              split; [|left; reflexivity].
              rewrite search_requests_app, Hadded1. reflexivity.
    + exists (Raised JSONDecodeError), [Search query per_page page], 1%nat.
      split; [reflexivity|]. split; [reflexivity | right; reflexivity].
Qed.

Lemma firstn_seq (m start len : nat) :
  firstn m (seq start len) = seq start (Nat.min m len).
Proof.
  revert start len. induction m as [|m IH]; intros start [|len];
    try reflexivity.
  simpl. rewrite IH. reflexivity.
Qed.

(** X19. Fewer results than a page fetch nothing: when
    [0 <= max_results < per_page] the number of pages is 0, so no request
    is sent and the list of repositories is empty. *)
Theorem fetch_github_repositories_less_than_a_page
    (query : string) (max_results per_page : Z) (h : list request) :
  (0 <= max_results < per_page)%Z ->
  fetch_github_repositories gh query max_results per_page h
  = (Returned [], h).
Proof.
  intro Hsmall. unfold fetch_github_repositories.
  destruct (per_page =? 0)%Z eqn:E; [apply Z.eqb_eq in E; lia|].
  rewrite (Z.div_small _ _ Hsmall). reflexivity.
Qed.

(** X20. The searches are pages 1, 2, ... in order, at most
    [max_results // per_page] of them: for a page size other than 0 the
    function extends the history, and the search requests it adds are those
    of the pages 1 to m for some m that is at most the number of pages (and
    none when that number is negative). *)
Theorem fetch_github_repositories_pages
    (query : string) (max_results per_page : Z) (h : list request) :
  per_page <> 0%Z ->
  exists out added m,
    fetch_github_repositories gh query max_results per_page h
    = (out, (h ++ added)%list)
    /\ search_requests added
       = map (fun page => Search query per_page (Z.of_nat page)) (seq 1 m)
    /\ (Z.of_nat m <= Z.max 0 (max_results / per_page))%Z.
Proof.
  intro Hpage. unfold fetch_github_repositories.
  destruct (per_page =? 0)%Z eqn:E; [apply Z.eqb_eq in E; contradiction|].
  cbv zeta.
  destruct (pages_loop_spec query per_page
              (range_from_1 (max_results / per_page + 1)) [] h)
    as (out & added & m & Hrun & Hadded & _); [constructor|].
  unfold range_from_1 in Hadded.
  rewrite firstn_map, firstn_seq, map_map in Hadded.
  eexists. eexists. eexists. split; [exact Hrun|].
  split; [exact Hadded|]. lia.
Qed.

(** X21. What the stage returns: every repository of a run that returns
    has a documentation that is not blank and none of the keys written by
    the later stages (and the page size of such a run is not 0). *)
Theorem fetch_github_repositories_outcome
    (query : string) (max_results per_page : Z) (h h' : list request)
    (repositories : list repo) :
  fetch_github_repositories gh query max_results per_page h
  = (Returned repositories, h') ->
  per_page <> 0%Z /\ Forall freshly_fetched repositories.
Proof.
  unfold fetch_github_repositories.
  destruct (per_page =? 0)%Z eqn:E; [discriminate|].
  apply Z.eqb_neq in E. cbv zeta. intro Hrun.
  split; [exact E|].
  destruct (pages_loop_spec query per_page
              (range_from_1 (max_results / per_page + 1)) [] h)
    as (out & added & m & Hrun' & _ & Hout); [constructor|].
  rewrite Hrun in Hrun'. injection Hrun' as <- _. exact Hout.
Qed.

End Search.

Lemma fetch_github_repositories_pages_witness :
  100%Z <> 0%Z
  /\ exists out added,
       fetch_github_repositories sample_github "llm" 1000 100 []
       = (out, added)
       /\ search_requests added = [Search "llm" 100 1; Search "llm" 100 2].
Proof.
  split; [discriminate|].
  destruct (fetch_github_repositories_pages sample_github "llm" 1000 100 [])
    as (out & added & m & Hrun & _); [discriminate|].
  exists out, added. split; [exact Hrun|].
  vm_compute in Hrun. injection Hrun as _ <-. reflexivity.
Defined.

Lemma fetch_github_repositories_outcome_witness :
  exists repositories h',
    fetch_github_repositories sample_github "llm" 1000 100 []
    = (Returned repositories, h')
    /\ map title repositories = ["a"; "No title available"]
    /\ Forall freshly_fetched repositories.
Proof.
  eexists. eexists.
  split; [vm_compute; reflexivity|].
  split; [reflexivity|].
  refine (proj2 (fetch_github_repositories_outcome sample_github "llm" 1000 100
                   [] _ _ _)).
  vm_compute. reflexivity.
Defined.

Lemma fetch_github_repositories_less_than_a_page_witness :
  (0 <= 50 < 100)%Z
  /\ fetch_github_repositories sample_github "llm" 50 100 [] = (Returned [], []).
Proof.
  split; [lia|].
  apply (fetch_github_repositories_less_than_a_page sample_github "llm" 50 100 []).
  lia.
Defined.

End FetchFacts.
